(** * Verification of the GPA calculator and the RAG chatbot engine

  Shallow embedding of [gpa_calculator.py] and [rag_chatbot.py].

  - Python [float] is IEEE 754 binary64: it is modelled by [spec_float]
    with precision 53 and maximal exponent 1024, the executable
    specification of binary64 arithmetic (round to nearest, ties to even).
  - Python [str] is modelled by [string]; the characters are code points
    below 256.  [upper] is [str.upper] on such text, except for the two
    code points U+00B5 and U+00FF, whose upper-case forms lie above 255:
    [in_latin1_upper] tells the texts that hold neither.
  - A raised exception is a value of [exn]; a function that can raise
    returns a [result].
  - The chatbot is a stateful object talking to external services (the
    language model, the Chroma collection, the uuid source): its methods
    live in a state-and-exception monad in which an exception keeps the
    mutations made before it was raised, as in Python. *)

From Stdlib Require Import ZArith Lia Bool Ascii String List.
From Stdlib Require Import Floats.SpecFloat.
From stdpp Require Import gmap strings list.

Local Open Scope string_scope.
Local Open Scope Z_scope.

(* ===================================================================== *)
(** * Python values: exceptions, strings *)
(* ===================================================================== *)

Module Py.

(** The exceptions of the program: [ValueError] is raised by the source
    itself, [KeyError] by a subscript on a missing dictionary key, and
    [LibraryError] stands for any [Exception] coming out of an external
    library call. *)
Inductive exn : Type :=
| ValueError (msg : string)
| KeyError (key : string)
| LibraryError (msg : string).

Inductive result (A : Type) : Type :=
| Ok (a : A)
| Raise (e : exn).
Arguments Ok {A} a.
Arguments Raise {A} e.

Definition rbind {A B} (r : result A) (k : A -> result B) : result B :=
  match r with
  | Ok a => k a
  | Raise e => Raise e
  end.

(** [str.upper] on one code point below 256 whose upper-case form is one
    code point below 256: the letters a..z move to A..Z, and the letters
    U+00E0..U+00FE other than the division sign U+00F7 move down by 32 as
    well.  Every other code point is left as it is. *)
Definition upper_char (c : ascii) : ascii :=
  let n := N_of_ascii c in
  if (((97 <=? n) && (n <=? 122))
      || ((224 <=? n) && (n <=? 254) && negb (n =? 247)))%N
  then ascii_of_N (n - 32) else c.

(** The sharp s, U+00DF, whose upper-case form is the two letters SS. *)
Definition sharp_s (c : ascii) : bool := (N_of_ascii c =? 223)%N.

(** [s.upper()].  The upper-case forms of U+00B5 and U+00FF are U+039C
    and U+0178, which are no characters of [string]: these two code points
    are left as they are, so that [upper] is [str.upper] on the texts of
    [in_latin1_upper].  On any text the result, once stripped, is a key
    of the grade table exactly when that of [str.upper] is: neither these
    two code points nor their upper-case forms are white space or occur
    in a key. *)
Fixpoint upper (s : string) : string :=
  match s with
  | EmptyString => EmptyString
  | String c s' =>
      if sharp_s c then String "S" (String "S" (upper s'))
      else String (upper_char c) (upper s')
  end.

(** The texts whose upper-case form is made of code points below 256:
    they hold neither U+00B5 nor U+00FF. *)
Fixpoint in_latin1_upper (s : string) : bool :=
  match s with
  | EmptyString => true
  | String c s' =>
      negb ((N_of_ascii c =? 181) || (N_of_ascii c =? 255))%N
      && in_latin1_upper s'
  end.

(** [str.isspace] for one code point below 256. *)
Definition is_space (c : ascii) : bool :=
  let n := N_of_ascii c in
  (((9 <=? n) && (n <=? 13)) || ((28 <=? n) && (n <=? 32))
   || (n =? 133) || (n =? 160))%N.

Fixpoint lstrip (s : string) : string :=
  match s with
  | EmptyString => EmptyString
  | String c s' => if is_space c then lstrip s' else s
  end.

Fixpoint rstrip (s : string) : string :=
  match s with
  | EmptyString => EmptyString
  | String c s' =>
      match rstrip s' with
      | EmptyString => if is_space c then EmptyString else String c EmptyString
      | r => String c r
      end
  end.

(** [s.strip()] *)
Definition strip (s : string) : string := rstrip (lstrip s).

(** [sep.join(l)] *)
Definition join (sep : string) (l : list string) : string :=
  String.concat sep l.

(** [s[:n]] *)
Definition slice_to (n : nat) (s : string) : string := substring 0 n s.

(** A [dict] with string keys whose insertion order matters, as an
    association list; [dict_get] is [k in d] together with [d[k]]. *)
Fixpoint dict_get {V} (k : string) (d : list (string * V)) : option V :=
  match d with
  | [] => None
  | (k', v) :: d' => if String.eqb k k' then Some v else dict_get k d'
  end.

Definition dict_keys {V} (d : list (string * V)) : list string := map fst d.

(** Truth value of an [Optional[str]]: [None] and the empty string are
    false. *)
Definition str_truthy (s : option string) : bool :=
  match s with
  | Some (String _ _) => true
  | _ => false
  end.

(** One lower-case hexadecimal digit. *)
Definition hex_char (d : N) : ascii :=
  if (d <? 10)%N then ascii_of_N (48 + d) else ascii_of_N (87 + d).

(** The [n] low hexadecimal digits of [u], most significant first, in
    front of [acc]. *)
Fixpoint hex_digits (n : nat) (u : N) (acc : string) : string :=
  match n with
  | O => acc
  | S n' => hex_digits n' (u / 16)%N (String (hex_char (u mod 16)%N) acc)
  end.

(** [str(u)] for a [uuid.UUID] of integer value [u] (below [2^128]): the
    32 digits of ['%032x' % u] in groups of 8, 4, 4, 4 and 12. *)
Definition uuid_str (u : N) : string :=
  let hex := hex_digits 32 u EmptyString in
  substring 0 8 hex +:+ "-" +:+ substring 8 4 hex +:+ "-"
    +:+ substring 12 4 hex +:+ "-" +:+ substring 16 4 hex +:+ "-"
    +:+ substring 20 12 hex.

End Py.

(* ===================================================================== *)
(** * Python floats: IEEE 754 binary64 *)
(* ===================================================================== *)

Module Float64.

Definition prec : Z := 53.
Definition emax : Z := 1024.

Definition float : Type := spec_float.

Definition add : float -> float -> float := SFadd prec emax.
Definition mul : float -> float -> float := SFmul prec emax.
Definition div : float -> float -> float := SFdiv prec emax.
Definition eqb : float -> float -> bool := SFeqb.
Definition ltb : float -> float -> bool := SFltb.

(** [float(n)] for an integer [n]. *)
Definition of_Z (n : Z) : float := binary_normalize prec emax n 0 false.

Definition zero : float := S754_zero false.

(** The double denoted by the decimal literal [digits * 10^-scale]
    (3.3 is [lit 33 1]): the double nearest to the rational, which is what
    the correctly rounded division of the two integers gives. *)
Definition lit (digits : Z) (scale : nat) : float :=
  div (of_Z digits) (of_Z (10 ^ Z.of_nat scale)).

(** A genuine binary64 value. *)
Definition is_float64 (x : float) : Prop := valid_binary prec emax x = true.

(** The integer nearest to [n / d], ties to the even one ([0 < d]). *)
Definition round_half_even (n d : Z) : Z :=
  let q := n / d in
  let r := n mod d in
  match 2 * r ?= d with
  | Lt => q
  | Gt => q + 1
  | Eq => if Z.even q then q else q + 1
  end.

(** [round(x, ndigits)] for [0 <= ndigits]: infinities, NaN and zeros
    round to themselves; a finite [x] is rounded, on its exact value, to
    the nearest multiple of [10^-ndigits] (ties to even), and the result
    is the double nearest to that decimal.  A double with a non-negative
    exponent is an integer and is its own rounding. *)
Definition round (x : float) (ndigits : nat) : float :=
  match x with
  | S754_finite s m (Zneg k) =>
      let p := 10 ^ Z.of_nat ndigits in
      match round_half_even (Zpos m * p) (2 ^ Zpos k) with
      | Zpos q => div (S754_finite s q 0) (of_Z p)
      | _ => S754_zero s
      end
  | _ => x
  end.

(** Strictly positive values with an exponent in range: what a positive
    binary64 is, seen from the sum that accumulates it. *)
Definition positive_float (x : float) : Prop :=
  match x with
  | S754_infinity false => True
  | S754_finite false _ e => emin prec emax <= e
  | _ => False
  end.

End Float64.

(* ===================================================================== *)
(** * gpa_calculator.py *)
(* ===================================================================== *)

Module GPA.
Import Py Float64.

Record GPACourse : Type := {
  name : string;
  credits : float;
  grade : string
}.

(** Grade point mapping, in the order of the source. *)
Definition GRADE_POINTS : list (string * float) :=
  [ ("A+", lit 40 1);
    ("A",  lit 40 1);
    ("A-", lit 37 1);
    ("B+", lit 33 1);
    ("B",  lit 30 1);
    ("B-", lit 27 1);
    ("C+", lit 23 1);
    ("C",  lit 20 1);
    ("C-", lit 17 1);
    ("D+", lit 13 1);
    ("D",  lit 10 1);
    ("D-", lit 7 1);
    ("F",  lit 0 1) ].

Definition invalid_grade_message (grade : string) : string :=
  "Invalid grade: " +:+ grade +:+ ". Valid grades are: "
    +:+ join ", " (dict_keys GRADE_POINTS).

Definition get_grade_points (grade : string) : result float :=
  let grade_upper := strip (upper grade) in
  match dict_get grade_upper GRADE_POINTS with
  | None => Raise (ValueError (invalid_grade_message grade))
  | Some points => Ok points
  end.

(** The [for course in courses] loop, on the two accumulators. *)
Fixpoint gpa_loop (courses : list GPACourse)
    (total_points total_credits : float) : result (float * float) :=
  match courses with
  | [] => Ok (total_points, total_credits)
  | course :: rest =>
      rbind (get_grade_points (grade course)) (fun grade_points =>
      let points := mul (credits course) grade_points in
      gpa_loop rest (add total_points points)
                    (add total_credits (credits course)))
  end.

Record GPAResult : Type := {
  gpa : float;
  total_credits : float;
  total_points : float
}.

Definition calculate_gpa (courses : list GPACourse) : result GPAResult :=
  match courses with
  | [] => Raise (ValueError "No courses provided")
  | _ =>
      rbind (gpa_loop courses zero zero) (fun '(total_points, total_credits) =>
      if eqb total_credits (of_Z 0) then
        Raise (ValueError "Total credits cannot be zero")
      else
        let gpa := div total_points total_credits in
        Ok {| gpa := round gpa 2;
              total_credits := round total_credits 2;
              total_points := round total_points 2 |})
  end.

(** *** The formula of the specification

    [gpa = round(sum(credits * gradePoints) / sum(credits), 2)], the sums
    taken in the order of the list, from [0.0]. *)



Definition sum_credits (courses : list GPACourse) : float :=
  fold_left (fun acc c => add acc (credits c)) courses zero.


(** A grade of the 13-symbol scale, as written in the table. *)
Definition in_scale (g : string) : Prop := In g (dict_keys GRADE_POINTS).

(** A grade the code recognises: in the table once upper-cased and
    stripped. *)
Definition recognised (g : string) : Prop :=
  dict_get (strip (upper g)) GRADE_POINTS <> None.

(** A course with a positive number of credits. *)
Definition positive_credits (c : GPACourse) : Prop :=
  is_float64 (credits c) /\ ltb zero (credits c) = true.

Definition course (cr : float) (g : string) : GPACourse :=
  {| name := "course"; credits := cr; grade := g |}.

End GPA.

(* ===================================================================== *)
(** * rag_chatbot.py *)
(* ===================================================================== *)

Module RAG.
Import Py.
Local Close Scope Z_scope.

(** [langchain_core.documents.Document] *)
Record Document : Type := {
  page_content : string;
  metadata : gmap string string
}.

(** One entry of a conversation: the dictionary with the two keys
    role and content. *)
Record Turn : Type := {
  role : string;
  content : string
}.

Definition user_turn (message : string) : Turn :=
  {| role := "user"; content := message |}.
Definition assistant_turn (answer : string) : Turn :=
  {| role := "assistant"; content := answer |}.

(** What [llm.invoke] returns: an object with a [content] attribute, or
    anything else, of which only [str(response)] is used. *)
Inductive Response : Type :=
| AIMessage (text : string)
| Opaque (repr : string).

(** [response.content if hasattr(response, 'content') else str(response)] *)
Definition answer_of (response : Response) : string :=
  match response with
  | AIMessage text => text
  | Opaque repr => repr
  end.

(** The handle on the Chroma collection kept in [self.vector_store]. *)
Record Chroma : Type := { chroma_directory : string }.

(** The retrieval chain kept in [self.qa_chain]: retriever, prompt, model
    and output parser; only the retriever's [k] is a parameter. *)
Record QAChain : Type := { search_k : nat }.

Record RAGChatbot : Type := {
  persist_directory : string;
  vector_store : option Chroma;
  qa_chain : option QAChain;
  conversations : gmap string (list Turn)
}.

(** ** The external services

    Every call to a service is answered by an oracle of the environment,
    which reads the number of service calls made so far ([now]) and, for
    the store, the current content of the collection: a service may fail
    at one call and work at the next.  *)
Record Env : Type := {
  (* os.getenv of the key; the import of ChatGroq succeeded *)
  GROQ_API_KEY : option string;
  ChatGroq_installed : bool;
  (* the constructors called by __init__, and os.makedirs: each returns
     or raises *)
  new_embeddings : nat -> option exn;
  new_llm : nat -> option exn;
  makedirs : nat -> option exn;
  new_chroma : nat -> option exn;
  (* the integer value of uuid.uuid4() *)
  uuid4 : nat -> N;
  (* self.llm.invoke(prompt) *)
  llm : nat -> string -> result Response;
  (* self.vector_store._collection.count() *)
  collection_count : nat -> list Document -> result nat;
  (* self.vector_store.add_documents(docs): the new content, and the
     exception if one is raised *)
  add_to_collection :
    nat -> list Document -> list Document -> list Document * option exn;
  (* self.vector_store.persist() *)
  persist_collection : nat -> list Document -> option exn;
  (* the retriever on a query with a given k *)
  similarity_search :
    nat -> list Document -> string -> nat -> result (list Document);
  (* bool(self.vector_store) on a handle *)
  store_truth : nat -> list Document -> result bool
}.

(** The state a method runs in: the chatbot object, the content of the
    Chroma collection, and the count of service calls. *)
Record State : Type := {
  self : RAGChatbot;
  collection : list Document;
  now : nat
}.

(** ** State and exceptions *)

Definition M (A : Type) : Type := State -> result A * State.

#[global] Instance M_ret : MRet M := fun A a st => (Ok a, st).

#[global] Instance M_bind : MBind M := fun A B f m st =>
  match m st with
  | (Ok a, st') => f a st'
  | (Raise e, st') => (Raise e, st')
  end.

Definition raise {A} (e : exn) : M A := fun st => (Raise e, st).

(** [try: body except Exception as e: handler(e)] *)
Definition try_except {A} (body : M A) (handler : exn -> M A) : M A :=
  fun st =>
    match body st with
    | (Ok a, st') => (Ok a, st')
    | (Raise e, st') => handler e st'
    end.

Definition get_self : M RAGChatbot := fun st => (Ok (self st), st).

(** Attribute assignments on [self], as state updates. *)

Definition with_persist_directory (dir : string) (st : State) : State :=
  {| self := {| persist_directory := dir;
                vector_store := vector_store (self st);
                qa_chain := qa_chain (self st);
                conversations := conversations (self st) |};
     collection := collection st;
     now := now st |}.

Definition with_vector_store (vs : option Chroma) (st : State) : State :=
  {| self := {| persist_directory := persist_directory (self st);
                vector_store := vs;
                qa_chain := qa_chain (self st);
                conversations := conversations (self st) |};
     collection := collection st;
     now := now st |}.

Definition with_qa_chain (qa : option QAChain) (st : State) : State :=
  {| self := {| persist_directory := persist_directory (self st);
                vector_store := vector_store (self st);
                qa_chain := qa;
                conversations := conversations (self st) |};
     collection := collection st;
     now := now st |}.

Definition with_conversations (convs : gmap string (list Turn)) (st : State)
    : State :=
  {| self := {| persist_directory := persist_directory (self st);
                vector_store := vector_store (self st);
                qa_chain := qa_chain (self st);
                conversations := convs |};
     collection := collection st;
     now := now st |}.

(** One more service call has been made. *)
Definition tick (st : State) : State :=
  {| self := self st; collection := collection st; now := S (now st) |}.

Definition set_persist_directory (dir : string) : M unit :=
  fun st => (Ok tt, with_persist_directory dir st).
Definition set_vector_store (vs : option Chroma) : M unit :=
  fun st => (Ok tt, with_vector_store vs st).
Definition set_qa_chain (qa : option QAChain) : M unit :=
  fun st => (Ok tt, with_qa_chain qa st).
Definition set_conversations (convs : gmap string (list Turn)) : M unit :=
  fun st => (Ok tt, with_conversations convs st).

Definition of_option_exn (o : option exn) : result unit :=
  match o with None => Ok tt | Some e => Raise e end.

(** A service call that does not change the collection. *)
Definition service {A} (oracle : nat -> list Document -> result A) : M A :=
  fun st => (oracle (now st) (collection st), tick st).

(** A service call that returns nothing and may change the collection,
    also when it raises. *)
Definition store_update
    (oracle : nat -> list Document -> list Document * option exn) : M unit :=
  fun st =>
  let '(coll, err) := oracle (now st) (collection st) in
  (of_option_exn err,
   {| self := self st; collection := coll; now := S (now st) |}).

(** The object before [__init__] has set any attribute. *)
Definition blank : RAGChatbot :=
  {| persist_directory := EmptyString;
     vector_store := None;
     qa_chain := None;
     conversations := ∅ |}.

Definition newline : string := String (ascii_of_nat 10) EmptyString.

(** [format_docs] of [_update_qa_chain]. *)
Definition format_docs (docs : list Document) : string :=
  join (newline +:+ newline) (map page_content docs).

(** The prompt template, with its two variables filled in. *)
Definition format_prompt (context question : string) : string :=
  "Use the following pieces of context to answer the question at the end. "
  +:+ newline
  +:+ "If you don't know the answer based on the context, just say that you don't know, don't try to make up an answer."
  +:+ newline +:+ newline
  +:+ "Context: " +:+ context
  +:+ newline +:+ newline
  +:+ "Question: " +:+ question
  +:+ newline +:+ newline
  +:+ "Provide a helpful and accurate answer:".

(** The entry of [sources] made from one retrieved document:
    [doc.page_content[:200] + '...']. *)
Definition preview (doc : Document) : string :=
  slice_to 200 (page_content doc) +:+ "...".

Record ChatResult : Type := {
  answer : string;
  conversation_id : string;
  sources : list string
}.

Section Methods.

Variable env : Env.

(** *** Service calls *)

Definition llm_invoke (prompt : string) : M Response :=
  service (fun t _ => llm env t prompt).

Definition count : M nat := service (collection_count env).

(** The retriever made by [as_retriever(search_kwargs={'k': k})]. *)
Definition retrieve (query : string) (k : nat) : M (list Document) :=
  service (fun t coll => similarity_search env t coll query k).

Definition add_documents (docs : list Document) : M unit :=
  store_update (fun t coll => add_to_collection env t coll docs).

Definition persist : M unit :=
  service (fun t coll => of_option_exn (persist_collection env t coll)).

Definition uuid4_str : M string :=
  service (fun t _ => Ok (uuid_str (uuid4 env t))).

(** [bool(self.vector_store)]: [None] is false, and the handle answers
    for itself. *)
Definition vector_store_truth : M bool :=
  bot ← get_self;
  match vector_store bot with
  | None => mret false
  | Some _ => service (store_truth env)
  end.

(** [self.qa_chain.invoke(message)]: retrieve, fill the prompt, call the
    model, keep the text of the response. *)
Definition qa_chain_invoke (chain : QAChain) (question : string) : M string :=
  docs ← retrieve question (search_k chain);
  response ← llm_invoke (format_prompt (format_docs docs) question);
  mret (answer_of response).

(** *** Methods of [RAGChatbot] *)

Definition _update_qa_chain : M unit :=
  bot ← get_self;
  match vector_store bot with
  | None => set_qa_chain None
  | Some _ =>
      returned ← try_except
        (collection_count ← count;
         match collection_count with
         | O => set_qa_chain None;; mret true
         | S _ => mret false
         end)
        (fun _ => set_qa_chain None;; mret true);
      if returned : bool then mret tt
      else set_qa_chain (Some {| search_k := 3 |})
  end.

Definition __init__ (persist_directory : string) : M unit :=
  if negb (str_truthy (GROQ_API_KEY env)) then
    raise (ValueError ("GROQ_API_KEY not found in environment variables. "
                       +:+ "Please set it in your .env file or environment."))
  else
    service (fun t _ => of_option_exn (new_embeddings env t));;
    if negb (ChatGroq_installed env) then
      raise (ValueError "langchain-groq is not installed. Please install it with: pip install langchain-groq")
    else
      service (fun t _ => of_option_exn (new_llm env t));;
      set_persist_directory persist_directory;;
      service (fun t _ => of_option_exn (makedirs env t));;
      try_except
        (service (fun t _ => of_option_exn (new_chroma env t));;
         set_vector_store (Some {| chroma_directory := persist_directory |}))
        (fun _ => set_vector_store None);;
      set_qa_chain None;;
      _update_qa_chain;;
      set_conversations ∅.

(** [RAGChatbot(persist_directory)] in a world whose collection holds
    [coll] and that has served [t] calls. *)
Definition new_chatbot (persist_directory : string)
    (coll : list Document) (t : nat) : result unit * State :=
  __init__ persist_directory {| self := blank; collection := coll; now := t |}.

(** [metadatas[i] if metadatas and i < len(metadatas) else {}] *)
Definition metadata_at (metadatas : option (list (gmap string string)))
    (i : nat) : gmap string string :=
  match metadatas with
  | Some ms => default ∅ (ms !! i)
  | None => ∅
  end.

Definition index_documents (documents : list string)
    (metadatas : option (list (gmap string string))) : M unit :=
  match documents with
  | [] => mret tt
  | _ =>
      bot ← get_self;
      match vector_store bot with
      | None =>
          raise (ValueError "Vector store not initialized. ChromaDB dependencies may be missing.")
      | Some _ =>
          let doc_objects :=
            imap (fun i doc_text =>
                    {| page_content := doc_text;
                       metadata := metadata_at metadatas i |}) documents in
          add_documents doc_objects;;
          persist;;
          _update_qa_chain
      end
  end.

(** [self.conversations[conversation_id].append(turn)] *)
Definition append_turn (conversation_id : string) (turn : Turn) : M unit :=
  bot ← get_self;
  match conversations bot !! conversation_id with
  | None => raise (KeyError conversation_id)
  | Some turns =>
      set_conversations
        (<[conversation_id := (turns ++ [turn])%list]> (conversations bot))
  end.

(** The first part of [chat]: the conversation is resolved and the user
    message recorded. *)
Definition begin_turn (message : string) (conversation_id : option string)
    : M string :=
  conversation_id ←
    match conversation_id with
    | Some id => if str_truthy (Some id) then mret id else uuid4_str
    | None => uuid4_str
    end;
  bot ← get_self;
  match conversations bot !! conversation_id with
  | None =>
      set_conversations (<[conversation_id := []]> (conversations bot))
  | Some _ => mret tt
  end;;
  append_turn conversation_id (user_turn message);;
  mret conversation_id.

(** No documents indexed: the model is called on the message alone. *)
Definition direct_answer (message : string) : M (string * list string) :=
  response ← llm_invoke message;
  mret (answer_of response, []).

(** The body of the [try]: the chain, then the sources. *)
Definition grounded_answer (chain : QAChain) (message : string)
    : M (string * list string) :=
  answer ← qa_chain_invoke chain message;
  truthy ← vector_store_truth;
  if truthy : bool then
    docs ← retrieve message 3;
    mret (answer, map preview docs)
  else mret (answer, []).

(** The second part of [chat]: the response. *)
Definition respond (message : string) : M (string * list string) :=
  bot ← get_self;
  match qa_chain bot with
  | None => direct_answer message
  | Some chain =>
      try_except (grounded_answer chain message)
                 (fun _ => direct_answer message)
  end.

Definition chat (message : string) (conversation_id : option string)
    : M ChatResult :=
  conversation_id ← begin_turn message conversation_id;
  '(answer, sources) ← respond message;
  append_turn conversation_id (assistant_turn answer);;
  mret {| answer := answer;
          conversation_id := conversation_id;
          sources := sources |}.

Definition get_conversation_history (conversation_id : string)
    : M (list Turn) :=
  bot ← get_self;
  mret (default [] (conversations bot !! conversation_id)).

End Methods.

(** ** Vocabulary of the properties *)

(** A computation that leaves the chatbot object and the collection as
    they are: it may only call services. *)
Definition read_only {A} (m : M A) : Prop :=
  forall st, self (snd (m st)) = self st
             /\ collection (snd (m st)) = collection st.

(** The turns recorded under an identifier, none when it is unknown. *)
Definition history (st : State) (id : string) : list Turn :=
  default [] (conversations (self st) !! id).

(** The identifier a [chat] call works under: the caller's when it is a
    non-empty string, otherwise the text of the uuid drawn at the call. *)
Definition resolved_id (env : Env) (conversation_id : option string)
    (st : State) : string :=
  match conversation_id with
  | Some (String c s) => String c s
  | _ => uuid_str (uuid4 env (now st))
  end.

(** The state after the first part of [chat]: a uuid has been drawn when
    the caller gave no identifier, and the user turn is recorded. *)
Definition begun (env : Env) (message : string)
    (conversation_id : option string) (st : State) : State :=
  let id := resolved_id env conversation_id st in
  with_conversations
    (<[id := (history st id ++ [user_turn message])%list]>
       (conversations (self st)))
    (if str_truthy conversation_id then st else tick st).

(** The state after the last part of [chat]: the assistant turn is
    recorded. *)
Definition ended (id : string) (answer : string) (st : State) : State :=
  with_conversations
    (<[id := (history st id ++ [assistant_turn answer])%list]>
       (conversations (self st)))
    st.

(** The two answering modes; [chat] reads the mode off [self.qa_chain]. *)
Inductive Mode : Type := DIRECT | GROUNDED.

Definition mode (st : State) : Mode :=
  match qa_chain (self st) with
  | None => DIRECT
  | Some _ => GROUNDED
  end.

(** Readiness of the document store in a state, in the words of the
    specification: the store is reachable, its size check does not raise,
    and it holds at least one document. *)
Definition store_ready (env : Env) (st : State) : bool :=
  match vector_store (self st) with
  | None => false
  | Some _ =>
      match collection_count env (now st) (collection st) with
      | Ok (S _) => true
      | _ => false
      end
  end.

(** The state [st] as it stands when [t] service calls have been made. *)
Definition at_time (t : nat) (st : State) : State :=
  {| self := self st; collection := collection st; now := t |}.

(** What a [chat] call answered in DIRECT mode does: once the user turn
    is recorded, it makes one service call, to the model, on the message
    alone; the answer comes back with no sources and is recorded, and an
    error of the model is raised. *)
Definition direct_outcome (env : Env) (message : string)
    (conversation_id : option string) (st : State)
    : result ChatResult * State :=
  let id := resolved_id env conversation_id st in
  let st1 := begun env message conversation_id st in
  match llm env (now st1) message with
  | Ok response =>
      (Ok {| answer := answer_of response;
             conversation_id := id;
             sources := [] |},
       ended id (answer_of response) (tick st1))
  | Raise e => (Raise e, tick st1)
  end.

(** The states reached from [st0] by [chat] calls alone, whether they
    return or raise. *)
Inductive chats_from (env : Env) (st0 : State) : State -> Prop :=
| chats_none : chats_from env st0 st0
| chats_more (st : State) (message : string) (conversation_id : option string) :
    chats_from env st0 st ->
    chats_from env st0 (snd (chat env message conversation_id st)).

(** ** Concrete services, for evaluation

    A model answers by quoting its prompt, the store counts and returns
    its first documents; the model is up at the times [llm_up], the store
    at the times [store_up], and a service that is down raises. *)

Definition unavailable {A} (what : string) : result A :=
  Raise (LibraryError (what +:+ " unavailable")).

Definition service_env (llm_up store_up : nat -> bool) : Env :=
  {| GROQ_API_KEY := Some "gsk_key";
     ChatGroq_installed := true;
     new_embeddings := fun _ => None;
     new_llm := fun _ => None;
     makedirs := fun _ => None;
     new_chroma := fun _ => None;
     uuid4 := fun t => (N.of_nat t + 4096)%N;
     llm := fun t prompt =>
       if llm_up t then Ok (AIMessage ("re: " +:+ prompt))
       else unavailable "model";
     collection_count := fun t coll =>
       if store_up t then Ok (length coll) else unavailable "store";
     add_to_collection := fun t coll docs =>
       if store_up t then ((coll ++ docs)%list, None)
       else (coll, Some (LibraryError "store unavailable"));
     persist_collection := fun t _ =>
       if store_up t then None else Some (LibraryError "store unavailable");
     similarity_search := fun t coll _ k =>
       if store_up t then Ok (take k coll) else unavailable "store";
     store_truth := fun t coll =>
       if store_up t then Ok (negb (Nat.eqb (length coll) 0))
       else unavailable "store" |}.

Definition always (t : nat) : bool := true.
Definition never (t : nat) : bool := false.
Definition before (t0 t : nat) : bool := Nat.ltb t t0.
Definition except_at (t0 t : nat) : bool := negb (Nat.eqb t t0).

(** Everything works. *)
Definition honest : Env := service_env always always.

(** The model is down, the store works. *)
Definition llm_down : Env := service_env never always.

(** The store goes down after [t0] calls; the model stays up. *)
Definition store_outage_from (t0 : nat) : Env :=
  service_env always (before t0).

(** The store and the model go down after [t0] calls. *)
Definition outage_from (t0 : nat) : Env :=
  service_env (before t0) (before t0).

(** The store fails at call [t0] only. *)
Definition store_glitch_at (t0 : nat) : Env :=
  service_env always (except_at t0).

(** The same services where the Chroma collection cannot be opened. *)
Definition without_chroma (env : Env) : Env :=
  {| GROQ_API_KEY := GROQ_API_KEY env;
     ChatGroq_installed := ChatGroq_installed env;
     new_embeddings := new_embeddings env;
     new_llm := new_llm env;
     makedirs := makedirs env;
     new_chroma := fun _ => Some (LibraryError "chromadb unavailable");
     uuid4 := uuid4 env;
     llm := llm env;
     collection_count := collection_count env;
     add_to_collection := add_to_collection env;
     persist_collection := persist_collection env;
     similarity_search := similarity_search env;
     store_truth := store_truth env |}.

Definition paris : Document :=
  {| page_content := "Paris is the capital of France."; metadata := ∅ |}.

(** A chatbot constructed on a collection that already holds one
    document, the store failing at the very call that counts it. *)
Definition glitched_bot : State :=
  snd (new_chatbot (store_glitch_at 4) "./chroma_db" [paris] 0).

(** A chatbot constructed on an empty collection. *)
Definition fresh_bot (env : Env) : State :=
  snd (new_chatbot env "./chroma_db" [] 0).

(** The same after [index_documents] of one document. *)
Definition indexed_bot (env : Env) : State :=
  snd (index_documents env [page_content paris] None (fresh_bot env)).

End RAG.

From Stdlib Require Import DecimalString.

(* ===================================================================== *)
(** * gpa_calculator.py: vocabulary of further properties *)
(* ===================================================================== *)

Module GPAExtra.
Import Py Float64 GPA.

(** The grade points of a grade as the code looks it up: [None] when
    [get_grade_points] raises. *)
Definition grade_value (g : string) : option float :=
  dict_get (strip (upper g)) GRADE_POINTS.

(** The first course of the list whose grade is not recognised. *)
Definition first_unrecognised (courses : list GPACourse) : option GPACourse :=
  List.find (fun c => match grade_value (grade c) with
                      | Some _ => false
                      | None => true
                      end) courses.

(** The two sums of the loop, on the grade points the code looks up. *)
Definition points_total (courses : list GPACourse) : float :=
  fold_left (fun acc c =>
               add acc (mul (credits c) (default zero (grade_value (grade c)))))
            courses zero.

Definition credits_total (courses : list GPACourse) : float :=
  fold_left (fun acc c => add acc (credits c)) courses zero.

(** A text made of white space only. *)
Fixpoint all_space (s : string) : bool :=
  match s with
  | EmptyString => true
  | String c s' => is_space c && all_space s'
  end.

Definition leb : float -> float -> bool := SFleb.

(** A zero of either sign. *)
Definition is_zero (x : float) : Prop :=
  match x with S754_zero _ => True | _ => False end.

(** A text that does not start with white space. *)
Definition starts_clean (s : string) : Prop :=
  match s with
  | EmptyString => True
  | String c _ => is_space c = false
  end.

End GPAExtra.

(* ===================================================================== *)
(** * rag_chatbot.py: vocabulary of further properties *)
(* ===================================================================== *)

Module RAGExtra.
Import Py RAG.
Local Close Scope Z_scope.

(** The [doc_objects] that [index_documents] builds and hands to the
    store. *)
Definition make_documents (documents : list string)
    (metadatas : option (list (gmap string string))) : list Document :=
  imap (fun i doc_text =>
          {| page_content := doc_text;
             metadata := metadata_at metadatas i |}) documents.

(** A call of one of the three public methods. *)
Inductive Call : Type :=
| CallChat (message : string) (conversation_id : option string)
| CallIndex (documents : list string)
            (metadatas : option (list (gmap string string)))
| CallHistory (conversation_id : string).

(** The state a call leaves, whether it returns or raises. *)
Definition after_call (env : Env) (st : State) (c : Call) : State :=
  match c with
  | CallChat message conversation_id =>
      snd (chat env message conversation_id st)
  | CallIndex documents metadatas =>
      snd (index_documents env documents metadatas st)
  | CallHistory conversation_id =>
      snd (get_conversation_history conversation_id st)
  end.

Definition after_calls (env : Env) (calls : list Call) (st : State) : State :=
  fold_left (after_call env) calls st.

(** A retrieval chain is held only together with a store handle. *)
Definition chain_needs_store (bot : RAGChatbot) : Prop :=
  qa_chain bot <> None -> vector_store bot <> None.

(** The turn sequences the code can build: each call adds a user turn,
    followed by an assistant turn when the call returns. *)
Inductive dialogue : list Turn -> Prop :=
| dialogue_empty : dialogue []
| dialogue_unanswered (turns : list Turn) (message : string) :
    dialogue turns -> dialogue (turns ++ [user_turn message])%list
| dialogue_answered (turns : list Turn) (message answer : string) :
    dialogue turns ->
    dialogue (turns ++ [user_turn message; assistant_turn answer])%list.

(** The services with no API key in the environment. *)
Definition without_key (env : Env) : Env :=
  {| GROQ_API_KEY := None;
     ChatGroq_installed := ChatGroq_installed env;
     new_embeddings := new_embeddings env;
     new_llm := new_llm env;
     makedirs := makedirs env;
     new_chroma := new_chroma env;
     uuid4 := uuid4 env;
     llm := llm env;
     collection_count := collection_count env;
     add_to_collection := add_to_collection env;
     persist_collection := persist_collection env;
     similarity_search := similarity_search env;
     store_truth := store_truth env |}.

(** Everything [__init__] needs to return: the key, the embeddings, the
    ChatGroq class, the model client and the directory. *)
Definition construction_inputs_fine (env : Env) (t : nat) : Prop :=
  str_truthy (GROQ_API_KEY env) = true
  /\ new_embeddings env t = None
  /\ ChatGroq_installed env = true
  /\ new_llm env (1 + t) = None
  /\ makedirs env (2 + t) = None.

(** The store fails at the second call of an indexing started at [t0]:
    the documents are added, and [persist] raises. *)
Definition persist_fails_at (t0 : nat) : Env := store_glitch_at (S t0).

(** Two environments whose model and uuid source answer alike. *)
Definition same_model (env1 env2 : Env) : Prop :=
  (forall t prompt, llm env1 t prompt = llm env2 t prompt)
  /\ (forall t, uuid4 env1 t = uuid4 env2 t).

End RAGExtra.

(* ===================================================================== *)
(** * main.py *)
(* ===================================================================== *)

Module Main.
Import Py Float64 GPA GPAExtra RAG.
Local Close Scope Z_scope.

(** ** Texts of Python values *)

Fixpoint str_contains (c : ascii) (s : string) : bool :=
  match s with
  | EmptyString => false
  | String c' s' => Ascii.eqb c c' || str_contains c s'
  end.

Definition single_quote : ascii := ascii_of_nat 39.
Definition double_quote : ascii := ascii_of_nat 34.
Definition backslash : ascii := ascii_of_nat 92.

Definition hex2 (n : N) : string :=
  String (hex_char (n / 16)%N) (String (hex_char (n mod 16)%N) EmptyString).

(** [str.isprintable] for one code point below 256. *)
Definition printable (n : N) : bool :=
  (((32 <=? n) && (n <? 127)) || ((161 <=? n) && negb (n =? 173)))%N.

Definition repr_char (quote c : ascii) : string :=
  let n := N_of_ascii c in
  if Ascii.eqb c quote || Ascii.eqb c backslash then
    String backslash (String c EmptyString)
  else if (n =? 9)%N then String backslash "t"
  else if (n =? 10)%N then String backslash "n"
  else if (n =? 13)%N then String backslash "r"
  else if printable n then String c EmptyString
  else String backslash ("x" +:+ hex2 n).

Fixpoint repr_body (quote : ascii) (s : string) : string :=
  match s with
  | EmptyString => EmptyString
  | String c s' => repr_char quote c +:+ repr_body quote s'
  end.

(** [repr(s)] of a [str]: single quotes, unless the text holds a single
    quote and no double quote. *)
Definition repr (s : string) : string :=
  let quote :=
    if str_contains single_quote s && negb (str_contains double_quote s)
    then double_quote else single_quote in
  String quote (repr_body quote s +:+ String quote EmptyString).

(** [str(e)] of an exception built on one argument: the argument for
    [ValueError] and the library errors, its [repr] for [KeyError]. *)
Definition str_exn (e : exn) : string :=
  match e with
  | ValueError msg => msg
  | KeyError key => repr key
  | LibraryError msg => msg
  end.

(** [str(n)] of a natural number. *)
Definition str_nat (n : nat) : string :=
  NilZero.string_of_uint (Nat.to_uint n).

(** ** HTTP *)

Record HTTPException : Type := {
  status_code : nat;
  detail : string
}.

(** What a handler does: it returns a body, or raises [HTTPException]. *)
Inductive reply (A : Type) : Type :=
| Body (a : A)
| Refused (e : HTTPException).
Arguments Body {A} a.
Arguments Refused {A} e.

(** ** GPA endpoint *)

Record CourseInput : Type := {
  name : string;
  credits : float;
  grade : string
}.

(** The constraint [Field(..., gt=0)] on [credits], on a binary64. *)
Definition valid_course (c : CourseInput) : Prop :=
  is_float64 (credits c) /\ ltb zero (credits c) = true.

Record GPAResponse : Type := {
  gpa : float;
  total_credits : float;
  total_points : float
}.

(** The list of [GPACourse] built from the request: the grade goes
    through [upper]. *)
Definition to_courses (request : list CourseInput) : list GPACourse :=
  map (fun course =>
         {| GPA.name := name course;
            GPA.credits := credits course;
            GPA.grade := upper (grade course) |}) request.

Definition calculate_gpa_endpoint (request : list CourseInput)
    : reply GPAResponse :=
  match calculate_gpa (to_courses request) with
  | Ok result =>
      Body {| gpa := GPA.gpa result;
              total_credits := GPA.total_credits result;
              total_points := GPA.total_points result |}
  | Raise (ValueError msg) =>
      Refused {| status_code := 400; detail := str_exn (ValueError msg) |}
  | Raise e =>
      Refused {| status_code := 500;
                 detail := "Internal server error: " +:+ str_exn e |}
  end.

(** ** Chatbot endpoints *)

(** The process: the global [rag_chatbot], the Chroma collection and the
    count of service calls. *)
Record App : Type := {
  rag_chatbot : option RAGChatbot;
  store : list Document;
  clock : nat
}.

(** A method of the chatbot object run in the process: the object is
    updated in place. *)
Definition on_chatbot {A} (method : M A) (bot : RAGChatbot) (app : App)
    : result A * App :=
  let '(r, st) :=
    method {| self := bot; collection := store app; now := clock app |} in
  (r, {| rag_chatbot := Some (self st);
         store := collection st;
         clock := now st |}).

(** [startup_event]: the chatbot is constructed on the default directory;
    when construction raises, the global keeps its value. *)
Definition startup_event (env : Env) (app : App) : App :=
  let '(r, st) :=
    __init__ env "./chroma_db"
      {| self := blank; collection := store app; now := clock app |} in
  {| rag_chatbot := match r with
                    | Ok _ => Some (self st)
                    | Raise _ => rag_chatbot app
                    end;
     store := collection st;
     clock := now st |}.

Record ChatRequest : Type := {
  message : string;
  conversation_id : option string
}.

(** The field [conversation_id] of the response is written
    [response_conversation_id], the name being taken by the request. *)
Record ChatResponse : Type := {
  response : string;
  response_conversation_id : string;
  sources : option (list string)
}.

Definition not_initialized : HTTPException :=
  {| status_code := 503;
     detail := "RAG Chatbot is not initialized. Please check your Groq API key and configuration." |}.

Definition chat_endpoint (env : Env) (request : ChatRequest) (app : App)
    : reply ChatResponse * App :=
  match rag_chatbot app with
  | None => (Refused not_initialized, app)
  | Some bot =>
      match on_chatbot (chat env (message request) (conversation_id request))
                       bot app with
      | (Ok r, app') =>
          (Body {| response := RAG.answer r;
                   response_conversation_id := RAG.conversation_id r;
                   sources := Some (RAG.sources r) |}, app')
      | (Raise e, app') =>
          (Refused {| status_code := 500;
                      detail := "Error processing chat request: "
                                +:+ str_exn e |}, app')
      end
  end.

Definition indexed_message (documents : list string) : string :=
  "Successfully indexed " +:+ str_nat (length documents) +:+ " documents".

Definition indexing_unavailable (e : exn) : HTTPException :=
  {| status_code := 503;
     detail := "Document indexing is not available: " +:+ str_exn e
               +:+ ". The chatbot is working in direct LLM mode (without document retrieval). To enable document indexing, ChromaDB dependencies need to be fully installed." |}.

(** The endpoint [index_documents] of main.py. *)
Definition index_documents (env : Env) (documents : list string) (app : App)
    : reply string * App :=
  match rag_chatbot app with
  | None => (Refused not_initialized, app)
  | Some bot =>
      match on_chatbot (RAG.index_documents env documents None) bot app with
      | (Ok _, app') => (Body (indexed_message documents), app')
      | (Raise (ValueError msg), app') =>
          (Refused (indexing_unavailable (ValueError msg)), app')
      | (Raise e, app') =>
          (Refused {| status_code := 500;
                      detail := "Error indexing documents: " +:+ str_exn e |},
           app')
      end
  end.

Record Health : Type := {
  status : string;
  rag_chatbot_available : bool
}.

Definition health_check (app : App) : Health :=
  {| status := "healthy";
     rag_chatbot_available :=
       match rag_chatbot app with Some _ => true | None => false end |}.

(** The process before [startup_event]. *)
Definition boot (coll : list Document) : App :=
  {| rag_chatbot := None; store := coll; clock := 0 |}.

(** The turns the chatbot of the process holds under an identifier. *)
Definition app_history (app : App) (id : string) : list Turn :=
  match rag_chatbot app with
  | Some bot => default [] (conversations bot !! id)
  | None => []
  end.

(** The first course of a request whose grade is not recognised. *)
Definition first_refused (request : list CourseInput) : option CourseInput :=
  List.find (fun c => match grade_value (grade c) with
                      | Some _ => false
                      | None => true
                      end) request.

(** The state of the chatbot of a running process. *)
Definition chatbot_state (bot : RAGChatbot) (app : App) : State :=
  {| self := bot; collection := store app; now := clock app |}.

End Main.

(* ===================================================================== *)
(** * Facts on binary64 rounding *)
(* ===================================================================== *)

Module Float64Facts.
Import Float64.

(** One step of the right shift halves the mantissa. *)
Lemma shr_m_shr_1 (r : shr_record) :
  0 <= shr_m r -> shr_m (shr_1 r) = shr_m r / 2.
Proof.
  destruct r as [m b s]; simpl; intros Hm.
  rewrite <- Z.div2_div.
  destruct m as [|p|p]; [reflexivity| |lia].
  destruct p; reflexivity.
Qed.

Lemma shr_m_iter_pos (n : positive) : forall r : shr_record,
  0 <= shr_m r -> shr_m (SpecFloat.iter_pos shr_1 n r) = shr_m r / 2 ^ Zpos n.
Proof.
  induction n as [n IH|n IH|]; intros r Hr; simpl SpecFloat.iter_pos.
  - assert (H1 : 0 <= shr_m (shr_1 r)).
    { rewrite shr_m_shr_1 by assumption. apply Z.div_pos; lia. }
    assert (H2 : 0 <= shr_m (SpecFloat.iter_pos shr_1 n (shr_1 r))).
    { rewrite IH by assumption.
      apply Z.div_pos; [assumption|]. apply Z.pow_pos_nonneg; lia. }
    rewrite IH, IH, shr_m_shr_1 by assumption.
    rewrite !Z.div_div by (try apply Z.pow_pos_nonneg; lia).
    f_equal. replace (Z.pos n~1) with (1 + Z.pos n + Z.pos n) by lia.
    rewrite !Z.pow_add_r by lia. rewrite Z.pow_1_r. lia.
  - assert (H2 : 0 <= shr_m (SpecFloat.iter_pos shr_1 n r)).
    { rewrite IH by assumption.
      apply Z.div_pos; [assumption|]. apply Z.pow_pos_nonneg; lia. }
    rewrite IH, IH by assumption.
    rewrite !Z.div_div by (try apply Z.pow_pos_nonneg; lia).
    f_equal. replace (Z.pos n~0) with (Z.pos n + Z.pos n) by lia.
    rewrite Z.pow_add_r by lia. reflexivity.
  - rewrite shr_m_shr_1 by assumption. reflexivity.
Qed.

(** A mantissa of [d] binary digits is at least [2^(d-1)]. *)
Lemma digits2_pos_lower (p : positive) :
  2 ^ (Zpos (digits2_pos p) - 1) <= Zpos p.
Proof.
  induction p as [p IH|p IH|]; simpl digits2_pos.
  - rewrite Pos2Z.inj_succ.
    replace (Z.succ (Z.pos (digits2_pos p)) - 1)
      with (Z.succ (Z.pos (digits2_pos p) - 1)) by lia.
    rewrite Z.pow_succ_r by lia. lia.
  - rewrite Pos2Z.inj_succ.
    replace (Z.succ (Z.pos (digits2_pos p)) - 1)
      with (Z.succ (Z.pos (digits2_pos p) - 1)) by lia.
    rewrite Z.pow_succ_r by lia. lia.
  - simpl. lia.
Qed.

Lemma shr_record_of_loc_m (m : Z) (l : location) :
  shr_m (shr_record_of_loc m l) = m.
Proof. destruct l as [|[]]; reflexivity. Qed.

(** Shifting a positive mantissa to its canonical exponent never loses
    all of its digits, and never lowers the exponent. *)
Lemma shr_fexp_positive (m : positive) (e : Z) (l : location) :
  emin prec emax <= e ->
  0 < shr_m (fst (shr_fexp prec emax (Zpos m) e l))
  /\ emin prec emax <= snd (shr_fexp prec emax (Zpos m) e l).
Proof.
  intros He. unfold shr_fexp, shr, fexp. simpl Zdigits2.
  set (d := Zpos (digits2_pos m)).
  destruct (Z.max (d + e - prec) (emin prec emax) - e) as [|k|k] eqn:Hk;
    simpl; rewrite ?shr_record_of_loc_m; try (split; lia).
  rewrite shr_m_iter_pos by (rewrite shr_record_of_loc_m; lia).
  rewrite shr_record_of_loc_m. split; [|lia].
  apply Z.div_str_pos. split; [apply Z.pow_pos_nonneg; lia|].
  pose proof (digits2_pos_lower m) as Hd. fold d in Hd.
  apply Z.le_trans with (2 ^ (d - 1)); [|assumption].
  apply Z.pow_le_mono_r; unfold prec in *; lia.
Qed.

Lemma round_nearest_even_positive (m : Z) (l : location) :
  0 < m -> 0 < round_nearest_even m l.
Proof.
  intros Hm. destruct l as [|[]]; simpl; try lia.
  destruct (Z.even m); lia.
Qed.

(** Rounding a positive value gives a positive double or [+inf], never
    zero. *)
Lemma binary_round_aux_positive (m : positive) (e : Z) (l : location) :
  emin prec emax <= e ->
  positive_float (binary_round_aux prec emax false (Zpos m) e l).
Proof.
  intros He. unfold binary_round_aux.
  pose proof (shr_fexp_positive m e l He) as [H1 H1'].
  destruct (shr_fexp prec emax (Zpos m) e l) as [r1 e1]; simpl in H1, H1'.
  pose proof (round_nearest_even_positive (shr_m r1) (loc_of_shr_record r1) H1)
    as H2.
  destruct (round_nearest_even (shr_m r1) (loc_of_shr_record r1))
    as [|m2|m2]; try lia.
  pose proof (shr_fexp_positive m2 e1 loc_Exact H1') as [H3 H3'].
  destruct (shr_fexp prec emax (Zpos m2) e1 loc_Exact) as [r2 e2];
    simpl in H3, H3'.
  destruct (shr_m r2) as [|m3|m3]; try lia.
  destruct (e2 <=? emax - prec); simpl; auto.
Qed.

Lemma shl_align_exponent (m : positive) (e e' : Z) :
  emin prec emax <= e -> emin prec emax <= e' ->
  emin prec emax <= snd (shl_align m e e').
Proof.
  intros. unfold shl_align. destruct (e' - e); simpl; lia.
Qed.

(** Adding a positive double to [0.0] or to a positive double gives a
    positive double. *)
Lemma add_positive (x y : float) :
  x = zero \/ positive_float x ->
  positive_float y ->
  positive_float (add x y).
Proof.
  intros [-> | Hx] Hy.
  - destruct y as [| [] | | [] m e]; simpl in *; try contradiction; auto.
  - destruct x as [| [] | | [] mx ex]; destruct y as [| [] | | [] my ey];
      simpl in Hx, Hy; try contradiction; try exact I.
    unfold add, SFadd, cond_Zopp.
    rewrite <- Pos2Z.inj_add.
    unfold binary_normalize, binary_round.
    set (p := (fst (shl_align mx ex (Z.min ex ey))
               + fst (shl_align my ey (Z.min ex ey)))%positive).
    pose proof (shl_align_exponent p (Z.min ex ey)
      (fexp prec emax (Zpos (digits2_pos p) + Z.min ex ey))) as Hs.
    destruct (shl_align p (Z.min ex ey) _) as [mz ez]; simpl in Hs.
    apply binary_round_aux_positive. apply Hs; [lia|].
    unfold fexp. lia.
Qed.

(** A valid binary64 above [0.0] is positive in the above sense. *)
Lemma valid_positive (x : float) :
  is_float64 x -> ltb zero x = true -> positive_float x.
Proof.
  unfold is_float64, ltb, SFltb.
  destruct x as [s | [] | | [] m e]; simpl; try discriminate; auto.
  intros Hv _. unfold bounded, canonical_mantissa, fexp in Hv.
  apply andb_prop in Hv as [Hc _]. apply Z.eqb_eq in Hc. lia.
Qed.

(** [x == 0] is false on a positive double. *)
Lemma positive_nonzero (x : float) :
  positive_float x -> eqb x (of_Z 0) = false.
Proof.
  destruct x as [s | [] | | [] m e]; simpl; intros H;
    try contradiction; reflexivity.
Qed.

End Float64Facts.

(* ===================================================================== *)
(** * gpa_calculator.py: properties *)
(* ===================================================================== *)

Module GPAProofs.
Import Py Float64 Float64Facts GPA.





Lemma fold_credits_positive (courses : list GPACourse) : forall acc : float,
  positive_float acc ->
  Forall positive_credits courses ->
  positive_float (fold_left (fun acc c => add acc (credits c)) courses acc).
Proof.
  induction courses as [|c rest IH]; intros acc Hacc Hall; [assumption|].
  inversion Hall as [|? ? [Hv Hp] Hrest]; subst.
  cbn [fold_left]. apply IH; [|assumption].
  apply add_positive; [right; assumption|].
  apply valid_positive; assumption.
Qed.

Lemma sum_credits_positive (courses : list GPACourse) :
  courses <> [] ->
  Forall positive_credits courses ->
  positive_float (sum_credits courses).
Proof.
  destruct courses as [|c rest]; [congruence|]. intros _ Hall.
  inversion Hall as [|? ? [Hv Hp] Hrest]; subst.
  unfold sum_credits. cbn [fold_left].
  apply fold_credits_positive; [|assumption].
  apply add_positive; [left; reflexivity|].
  apply valid_positive; assumption.
Qed.



(** The arithmetic is binary64, not exact: on (1 credit, A) and
    (3 credits, B+) the exact quotient is 3.475, the accumulated double
    lies just below it, and the result is 3.47. *)
Example calculate_gpa_rounds_the_double :
  calculate_gpa [course (lit 10 1) "A"; course (lit 30 1) "B+"] =
    Ok {| gpa := lit 347 2;
          total_credits := lit 40 1;
          total_points := lit 139 1 |}.
Proof. vm_compute. reflexivity. Qed.

(** A course whose grade is not recognised makes the loop raise, whatever
    the accumulators and the other courses. *)
Lemma gpa_loop_unrecognised (courses : list GPACourse) : forall tp tc : float,
  Exists (fun c => ~ recognised (grade c)) courses ->
  exists msg, gpa_loop courses tp tc = Raise (ValueError msg).
Proof.
  induction courses as [|c rest IH]; intros tp tc Hex.
  - inversion Hex.
  - cbn [gpa_loop]. unfold get_grade_points.
    destruct (dict_get (strip (upper (grade c))) GRADE_POINTS) as [p|] eqn:Hg.
    + cbn [rbind]. apply IH.
      inversion Hex as [? ? Hbad|]; subst; [|assumption].
      exfalso. apply Hbad. unfold recognised. congruence.
    + cbn [rbind]. eexists. reflexivity.
Qed.

(** C9, as amended.  For every course list containing a course whose grade,
    once upper-cased and stripped of surrounding white space, is not a
    symbol of the 13-symbol scale, [calculate_gpa] raises [ValueError],
    regardless of the credits and of the other courses. *)
Theorem calculate_gpa_unrecognised_grade
    (courses : list GPACourse) (c : GPACourse) :
  In c courses ->
  ~ recognised (grade c) ->
  exists msg, calculate_gpa courses = Raise (ValueError msg).
Proof.
  intros Hin Hbad.
  assert (Hex : Exists (fun c => ~ recognised (grade c)) courses).
  { apply List.Exists_exists. exists c. split; assumption. }
  destruct (gpa_loop_unrecognised courses zero zero Hex) as [msg Hmsg].
  unfold calculate_gpa. destruct courses as [|c0 rest] eqn:Hcs; [destruct Hin|].
  rewrite <- Hcs in *. rewrite Hmsg. cbn [rbind]. exists msg. reflexivity.
Qed.

(** The grade Z fails whatever the credits. *)
Lemma calculate_gpa_unrecognised_grade_witness :
  exists msg,
    calculate_gpa [course (lit 30 1) "A"; course (lit 30 1) "Z"]
      = Raise (ValueError msg).
Proof.
  apply (calculate_gpa_unrecognised_grade
           [course (lit 30 1) "A"; course (lit 30 1) "Z"]
           (course (lit 30 1) "Z")).
  - right. left. reflexivity.
  - unfold recognised. vm_compute. intros H. apply H. reflexivity.
Defined.

(** C9, as stated, fails: the grade b+ is not one of the 13 symbols of the
    table, and a course list holding it is accepted. *)
Lemma calculate_gpa_accepts_lower_case :
  ~ in_scale "b+"
  /\ calculate_gpa [course (lit 30 1) "b+"] =
       Ok {| gpa := lit 33 1;
             total_credits := lit 30 1;
             total_points := lit 99 1 |}.
Proof.
  split.
  - unfold in_scale. cbn. intros H.
    repeat (destruct H as [H | H]; [discriminate H|]). destruct H.
  - vm_compute. reflexivity.
Qed.

End GPAProofs.

(* ===================================================================== *)
(** * rag_chatbot.py: properties *)
(* ===================================================================== *)

Module RAGProofs.
Import Py RAG.
Local Close Scope Z_scope.

Ltac run :=
  unfold mbind, mret, M_bind, M_ret, raise, try_except, get_self,
    set_conversations, set_qa_chain, set_vector_store, set_persist_directory,
    service, store_update;
  cbn.

(** ** Identifiers *)

Lemma uuid_str_nonempty (u : N) : str_truthy (Some (uuid_str u)) = true.
Proof.
  unfold uuid_str.
  destruct (substring 0 8 (hex_digits 32 u EmptyString)); reflexivity.
Qed.

Lemma str_truthy_resolved (env : Env) (cid : option string) (st : State) :
  str_truthy (Some (resolved_id env cid st)) = true.
Proof.
  unfold resolved_id. destruct cid as [[|c s]|]; try reflexivity;
    apply uuid_str_nonempty.
Qed.

Lemma resolved_id_fixed (env : Env) (id : string) (st : State) :
  str_truthy (Some id) = true -> resolved_id env (Some id) st = id.
Proof. destruct id; [discriminate|reflexivity]. Qed.

(** ** Computations that only call services *)

Lemma read_only_ret {A} (a : A) : read_only (mret a).
Proof. intros st. split; reflexivity. Qed.

Lemma read_only_raise {A} (e : exn) : read_only (raise e : M A).
Proof. intros st. split; reflexivity. Qed.

Lemma read_only_bind {A B} (m : M A) (f : A -> M B) :
  read_only m -> (forall a, read_only (f a)) -> read_only (m ≫= f).
Proof.
  intros Hm Hf st. unfold mbind, M_bind.
  destruct (Hm st) as [H1 H2].
  destruct (m st) as [[a|e] st1]; cbn in *.
  - destruct (Hf a st1) as [H3 H4]. split; congruence.
  - split; assumption.
Qed.

Lemma read_only_try {A} (m : M A) (h : exn -> M A) :
  read_only m -> (forall e, read_only (h e)) -> read_only (try_except m h).
Proof.
  intros Hm Hh st. unfold try_except.
  destruct (Hm st) as [H1 H2].
  destruct (m st) as [[a|e] st1]; cbn in *.
  - split; assumption.
  - destruct (Hh e st1) as [H3 H4]. split; congruence.
Qed.

Lemma read_only_service {A} (oracle : nat -> list Document -> result A) :
  read_only (service oracle).
Proof. intros st. split; reflexivity. Qed.

Lemma read_only_get_self : read_only get_self.
Proof. intros st. split; reflexivity. Qed.

Ltac solve_read_only :=
  repeat first
    [ apply read_only_ret | apply read_only_raise | apply read_only_service
    | apply read_only_get_self
    | apply read_only_bind; [|intros ?]
    | apply read_only_try; [|intros ?]
    | match goal with
      | |- read_only (match ?x with _ => _ end) => destruct x
      | |- read_only (if ?x then _ else _) => destruct x
      end ].

Section Chat.
Variable env : Env.

Lemma read_only_direct_answer (message : string) :
  read_only (direct_answer env message).
Proof. unfold direct_answer, llm_invoke. solve_read_only. Qed.

Lemma read_only_grounded_answer (chain : QAChain) (message : string) :
  read_only (grounded_answer env chain message).
Proof.
  unfold grounded_answer, qa_chain_invoke, vector_store_truth, retrieve,
    llm_invoke.
  solve_read_only.
Qed.

Lemma read_only_respond (message : string) : read_only (respond env message).
Proof.
  unfold respond. apply read_only_bind; [apply read_only_get_self|].
  intros bot. destruct (qa_chain bot).
  - apply read_only_try; [apply read_only_grounded_answer|].
    intros _. apply read_only_direct_answer.
  - apply read_only_direct_answer.
Qed.

(** ** The three parts of [chat] *)

Lemma begin_turn_eq (message : string) (cid : option string) (st : State) :
  begin_turn env message cid st
  = (Ok (resolved_id env cid st), begun env message cid st).
Proof.
  unfold begin_turn, begun, history, append_turn, uuid4_str.
  destruct cid as [[|c s]|]; run.
  - destruct (conversations (self st) !! _) eqn:Hc; run.
    + rewrite Hc. run. reflexivity.
    + rewrite lookup_insert_eq. run. rewrite insert_insert_eq. reflexivity.
  - destruct (conversations (self st) !! _) eqn:Hc; run.
    + rewrite Hc. run. reflexivity.
    + rewrite lookup_insert_eq. run. rewrite insert_insert_eq. reflexivity.
  - destruct (conversations (self st) !! _) eqn:Hc; run.
    + rewrite Hc. run. reflexivity.
    + rewrite lookup_insert_eq. run. rewrite insert_insert_eq. reflexivity.
Qed.

Lemma lookup_begun (message : string) (cid : option string) (st : State) :
  conversations (self (begun env message cid st)) !! resolved_id env cid st
  = Some (history st (resolved_id env cid st) ++ [user_turn message])%list.
Proof.
  unfold begun. destruct (str_truthy cid); cbn; apply lookup_insert_eq.
Qed.

Lemma chat_eq (message : string) (cid : option string) (st : State) :
  chat env message cid st =
    match respond env message (begun env message cid st) with
    | (Ok (a, srcs), st2) =>
        (Ok {| answer := a;
               conversation_id := resolved_id env cid st;
               sources := srcs |},
         ended (resolved_id env cid st) a st2)
    | (Raise e, st2) => (Raise e, st2)
    end.
Proof.
  unfold chat. unfold mbind at 1. unfold M_bind at 1.
  rewrite begin_turn_eq.
  unfold mbind at 1. unfold M_bind at 1.
  pose proof (read_only_respond message (begun env message cid st)) as [Hs _].
  destruct (respond env message (begun env message cid st))
    as [[[a srcs]|e] st2]; [|reflexivity].
  change (self st2 = self (begun env message cid st)) in Hs.
  pose proof (lookup_begun message cid st) as Hl. rewrite <- Hs in Hl.
  unfold append_turn. run.
  rewrite Hl. run. unfold ended, history. rewrite Hl. reflexivity.
Qed.

(** ** Histories *)

Lemma history_same_self (st st' : State) (id : string) :
  self st' = self st -> history st' id = history st id.
Proof. unfold history. intros ->. reflexivity. Qed.

Lemma history_begun (message : string) (cid : option string) (st : State)
    (id : string) :
  history (begun env message cid st) id
  = if decide (id = resolved_id env cid st)
    then (history st id ++ [user_turn message])%list
    else history st id.
Proof.
  unfold begun, history at 1.
  destruct (str_truthy cid); cbn; rewrite lookup_insert;
    repeat case_decide; subst; try congruence; reflexivity.
Qed.

Lemma history_ended (rid answer : string) (st : State) (id : string) :
  history (ended rid answer st) id
  = if decide (id = rid)
    then (history st id ++ [assistant_turn answer])%list
    else history st id.
Proof.
  unfold ended, history at 1. cbn. rewrite lookup_insert;
    repeat case_decide; subst; try congruence; reflexivity.
Qed.

(** What a [chat] call does, by the outcome of its response part. *)
Lemma chat_outcome (message : string) (cid : option string) (st : State) :
  (exists a srcs st2,
      respond env message (begun env message cid st) = (Ok (a, srcs), st2)
      /\ self st2 = self (begun env message cid st)
      /\ chat env message cid st
         = (Ok {| answer := a;
                  conversation_id := resolved_id env cid st;
                  sources := srcs |},
            ended (resolved_id env cid st) a st2))
  \/ (exists e st2,
      respond env message (begun env message cid st) = (Raise e, st2)
      /\ self st2 = self (begun env message cid st)
      /\ chat env message cid st = (Raise e, st2)).
Proof.
  rewrite chat_eq.
  pose proof (read_only_respond message (begun env message cid st)) as [Hs _].
  destruct (respond env message (begun env message cid st))
    as [[[a srcs]|e] st2].
  - left. exists a, srcs, st2. auto.
  - right. exists e, st2. auto.
Qed.

(** A call that returns has recorded the user turn and then the assistant
    turn under the identifier it returns. *)
Lemma chat_returns_history (message : string) (cid : option string)
    (st st' : State) (r : ChatResult) :
  chat env message cid st = (Ok r, st') ->
  conversation_id r = resolved_id env cid st
  /\ history st' (conversation_id r)
     = (history st (conversation_id r)
        ++ [user_turn message; assistant_turn (answer r)])%list
  /\ (forall id, id <> conversation_id r -> history st' id = history st id).
Proof.
  intros Hchat.
  destruct (chat_outcome message cid st)
    as [(a & srcs & st2 & _ & Hs & Heq) | (e & st2 & _ & _ & Heq)];
    rewrite Heq in Hchat; [|discriminate].
  injection Hchat as <- <-. cbn [conversation_id answer].
  split; [reflexivity|]. split.
  - rewrite history_ended, decide_True by reflexivity.
    rewrite (history_same_self _ _ _ Hs), history_begun.
    rewrite decide_True by reflexivity.
    rewrite <- app_assoc. reflexivity.
  - intros id Hid. rewrite history_ended, decide_False by assumption.
    rewrite (history_same_self _ _ _ Hs), history_begun.
    rewrite decide_False by assumption. reflexivity.
Qed.

(** A call that raises has recorded the user turn only. *)
Lemma chat_raises_history (message : string) (cid : option string)
    (st st' : State) (e : exn) :
  chat env message cid st = (Raise e, st') ->
  history st' (resolved_id env cid st)
  = (history st (resolved_id env cid st) ++ [user_turn message])%list
  /\ (forall id, id <> resolved_id env cid st ->
        history st' id = history st id).
Proof.
  intros Hchat.
  destruct (chat_outcome message cid st)
    as [(a & srcs & st2 & _ & Hs & Heq) | (e' & st2 & _ & Hs & Heq)];
    rewrite Heq in Hchat; [discriminate|].
  injection Hchat as <- <-. split.
  - rewrite (history_same_self _ _ _ Hs), history_begun.
    rewrite decide_True by reflexivity. reflexivity.
  - intros id Hid. rewrite (history_same_self _ _ _ Hs), history_begun.
    rewrite decide_False by assumption. reflexivity.
Qed.

Lemma begun_qa_chain (message : string) (cid : option string) (st : State) :
  qa_chain (self (begun env message cid st)) = qa_chain (self st)
  /\ vector_store (self (begun env message cid st)) = vector_store (self st)
  /\ collection (begun env message cid st) = collection st.
Proof. unfold begun. destruct (str_truthy cid); cbn; auto. Qed.

(** In DIRECT mode the response is the model's answer to the message
    alone, with no sources. *)
Lemma respond_direct (message : string) (st : State) :
  qa_chain (self st) = None ->
  respond env message st =
    match llm env (now st) message with
    | Ok response => (Ok (answer_of response, []), tick st)
    | Raise e => (Raise e, tick st)
    end.
Proof.
  intros Hqa. unfold respond, direct_answer, llm_invoke. run.
  rewrite Hqa. destruct (llm env (now st) message); reflexivity.
Qed.

(** C5, as amended.  A chat call that returns appends, under the
    identifier it returns, exactly one user turn (the message) followed by
    exactly one assistant turn (the answer); no call, returning or raising,
    ever shortens a turn sequence; and two sequential calls that return,
    the first opening a new conversation and the second made with the
    identifier the first returned, leave under it exactly the four turns
    user, assistant, user, assistant. *)
Theorem chat_appends_turns :
  (forall message cid st r st',
      chat env message cid st = (Ok r, st') ->
      history st' (conversation_id r)
      = (history st (conversation_id r)
         ++ [user_turn message; assistant_turn (answer r)])%list)
  /\ (forall message cid st id,
        exists more,
          history (snd (chat env message cid st)) id
          = (history st id ++ more)%list)
  /\ (forall m1 m2 cid st r1 st1 r2 st2,
        chat env m1 cid st = (Ok r1, st1) ->
        conversations (self st) !! conversation_id r1 = None ->
        chat env m2 (Some (conversation_id r1)) st1 = (Ok r2, st2) ->
        conversation_id r2 = conversation_id r1
        /\ history st2 (conversation_id r1)
           = [user_turn m1; assistant_turn (answer r1);
              user_turn m2; assistant_turn (answer r2)]).
Proof.
  split; [|split].
  - intros message cid st r st' Hchat.
    apply (chat_returns_history message cid st st' r Hchat).
  - intros message cid st id.
    destruct (chat env message cid st) as [[r|e] st'] eqn:Hchat; cbn [snd].
    + destruct (chat_returns_history _ _ _ _ _ Hchat) as (_ & Hsame & Hother).
      destruct (decide (id = conversation_id r)) as [->|Hne].
      * eexists. exact Hsame.
      * exists []. rewrite app_nil_r. apply Hother. assumption.
    + destruct (chat_raises_history _ _ _ _ _ Hchat) as (Hsame & Hother).
      destruct (decide (id = resolved_id env cid st)) as [->|Hne].
      * eexists. exact Hsame.
      * exists []. rewrite app_nil_r. apply Hother. assumption.
  - intros m1 m2 cid st r1 st1 r2 st2 H1 Hnew H2.
    destruct (chat_returns_history _ _ _ _ _ H1) as (Hid1 & Hh1 & _).
    destruct (chat_returns_history _ _ _ _ _ H2) as (Hid2 & Hh2 & _).
    assert (Hid : conversation_id r2 = conversation_id r1).
    { rewrite Hid2. apply resolved_id_fixed.
      rewrite Hid1. apply str_truthy_resolved. }
    split; [assumption|].
    rewrite Hid in Hh2. rewrite Hh2, Hh1.
    unfold history at 1. rewrite Hnew. reflexivity.
Qed.

End Chat.

(** Two calls on a chatbot just constructed leave four turns. *)
Lemma chat_appends_turns_witness :
  exists r1 st1 r2 st2,
    chat honest "hello" None (fresh_bot honest) = (Ok r1, st1)
    /\ chat honest "and Rome?" (Some (conversation_id r1)) st1 = (Ok r2, st2)
    /\ history st2 (conversation_id r1)
       = [user_turn "hello"; assistant_turn "re: hello";
          user_turn "and Rome?"; assistant_turn "re: and Rome?"].
Proof.
  destruct (chat honest "hello" None (fresh_bot honest))
    as [[r1|e1] st1] eqn:H1; [|vm_compute in H1; discriminate H1].
  destruct (chat honest "and Rome?" (Some (conversation_id r1)) st1)
    as [[r2|e2] st2] eqn:H2.
  - exists r1, st1, r2, st2. split; [reflexivity|]. split; [exact H2|].
    destruct (proj2 (proj2 (chat_appends_turns honest))
                "hello" "and Rome?" None (fresh_bot honest) r1 st1 r2 st2 H1)
      as [_ Hh]; [| exact H2 |].
    + pose proof H1 as H1'. vm_compute in H1'. injection H1' as <- _.
      vm_compute. reflexivity.
    + rewrite Hh.
      pose proof H1 as H1'. vm_compute in H1'. injection H1' as <- <-.
      vm_compute in H2. injection H2 as <- _. reflexivity.
  - pose proof H1 as H1'. vm_compute in H1'. injection H1' as <- <-.
    vm_compute in H2. discriminate H2.
Defined.

(** C5, as stated, fails: when the model is down and no document is
    indexed the call raises, and the conversation has gained the user turn
    alone. *)
Lemma chat_failure_appends_one_turn :
  fst (chat llm_down "hello" (Some "c1") (fresh_bot llm_down))
    = Raise (LibraryError "model unavailable")
  /\ history (fresh_bot llm_down) "c1" = []
  /\ history (snd (chat llm_down "hello" (Some "c1") (fresh_bot llm_down))) "c1"
     = [user_turn "hello"].
Proof. vm_compute. repeat split; reflexivity. Qed.

(** C10.  When [chat] operates in DIRECT mode and the call to the model
    raises, the exception propagates to the caller and the conversation is
    not rolled back: the user turn appended before the failure stays, no
    assistant turn is appended, and the conversation has grown by exactly
    one turn. *)
Theorem chat_direct_failure_keeps_user_turn
    (env : Env) (message : string) (cid : option string) (st : State)
    (e : exn) :
  mode st = DIRECT ->
  llm env (now (begun env message cid st)) message = Raise e ->
  exists st',
    chat env message cid st = (Raise e, st')
    /\ history st' (resolved_id env cid st)
       = (history st (resolved_id env cid st) ++ [user_turn message])%list
    /\ length (history st' (resolved_id env cid st))
       = S (length (history st (resolved_id env cid st))).
Proof.
  unfold mode. intros Hmode Hllm.
  assert (Hqa : qa_chain (self st) = None).
  { destruct (qa_chain (self st)); [discriminate|reflexivity]. }
  assert (Hchat : chat env message cid st
                  = (Raise e, tick (begun env message cid st))).
  { rewrite chat_eq, respond_direct.
    - rewrite Hllm. reflexivity.
    - destruct (begun_qa_chain env message cid st) as [-> _]. assumption. }
  exists (tick (begun env message cid st)). split; [assumption|].
  destruct (chat_raises_history env _ _ _ _ _ Hchat) as [Hh _].
  split; [assumption|].
  rewrite Hh, length_app. cbn. lia.
Qed.

(** The model is down on a chatbot with no document. *)
Lemma chat_direct_failure_keeps_user_turn_witness :
  exists st',
    chat llm_down "hello" (Some "c1") (fresh_bot llm_down)
    = (Raise (LibraryError "model unavailable"), st')
    /\ history st' "c1" = [user_turn "hello"]
    /\ length (history st' "c1") = 1.
Proof.
  apply (chat_direct_failure_keeps_user_turn
           llm_down "hello" (Some "c1") (fresh_bot llm_down)).
  - vm_compute. reflexivity.
  - vm_compute. reflexivity.
Defined.

(** C3, as amended.  For every chat call that returns: when the caller
    gives no identifier (or the empty string) the identifier returned is
    the text of the uuid drawn at the call, with no check against the
    existing conversations; when the caller gives a non-empty identifier,
    that same identifier is returned, whether or not a conversation exists
    under it.  In both cases the conversation under the returned identifier
    is its former turn sequence (empty when there was none) followed by the
    two turns of the call. *)
Theorem chat_conversation_id
    (env : Env) (message : string) (cid : option string) (st st' : State)
    (r : ChatResult) :
  chat env message cid st = (Ok r, st') ->
  (str_truthy cid = false ->
     conversation_id r = uuid_str (uuid4 env (now st)))
  /\ (forall id, cid = Some id -> str_truthy cid = true ->
        conversation_id r = id)
  /\ history st' (conversation_id r)
     = (default [] (conversations (self st) !! conversation_id r)
        ++ [user_turn message; assistant_turn (answer r)])%list.
Proof.
  intros Hchat.
  destruct (chat_returns_history env _ _ _ _ _ Hchat) as (Hid & Hh & _).
  split; [|split].
  - intros Hcid. rewrite Hid. unfold resolved_id.
    destruct cid as [[|c s]|]; try reflexivity. discriminate Hcid.
  - intros id -> Htr. rewrite Hid. apply resolved_id_fixed. assumption.
  - exact Hh.
Qed.

(** A first call without identifier, on a chatbot just constructed. *)
Lemma chat_conversation_id_witness :
  exists r st',
    chat honest "hello" None (fresh_bot honest) = (Ok r, st')
    /\ conversation_id r = "00000000-0000-0000-0000-000000001005"
    /\ history st' (conversation_id r)
       = [user_turn "hello"; assistant_turn "re: hello"].
Proof.
  destruct (chat honest "hello" None (fresh_bot honest))
    as [[r|e] st'] eqn:Hchat; [|vm_compute in Hchat; discriminate Hchat].
  exists r, st'. split; [reflexivity|].
  destruct (chat_conversation_id honest "hello" None (fresh_bot honest) st' r Hchat)
    as (Hnone & _ & Hh).
  split.
  - rewrite Hnone by reflexivity. vm_compute. reflexivity.
  - rewrite Hh. vm_compute in Hchat. injection Hchat as <- _.
    vm_compute. reflexivity.
Defined.

(** C3, as stated, fails: an identifier that names no conversation is not
    replaced by a generated token, it is returned as it came. *)
Lemma chat_keeps_unknown_id :
  conversations (self (fresh_bot honest)) !! "my-conversation" = None
  /\ fst (chat honest "hello" (Some "my-conversation") (fresh_bot honest))
     = Ok {| answer := "re: hello";
             conversation_id := "my-conversation";
             sources := [] |}
  /\ uuid_str (uuid4 honest (now (fresh_bot honest)))
     = "00000000-0000-0000-0000-000000001005".
Proof. vm_compute. repeat split; reflexivity. Qed.

(** The code relies on uuid4 alone for the identifier to be new: when the
    token drawn names a conversation that exists (here one the caller
    opened under that very text), the call joins it. *)
Example chat_generated_id_may_be_in_use :
  let st1 :=
    snd (chat honest "mine" (Some "00000000-0000-0000-0000-000000001006")
           (fresh_bot honest)) in
  fst (chat honest "hello" None st1)
    = Ok {| answer := "re: hello";
            conversation_id := "00000000-0000-0000-0000-000000001006";
            sources := [] |}
  /\ history (snd (chat honest "hello" None st1))
             "00000000-0000-0000-0000-000000001006"
     = [user_turn "mine"; assistant_turn "re: mine";
        user_turn "hello"; assistant_turn "re: hello"].
Proof. vm_compute. split; reflexivity. Qed.

(** C6.  [get_conversation_history] never raises and changes no state: on
    an identifier with no conversation it returns the empty sequence, and
    otherwise the turn sequence of the conversation, in order. *)
Theorem get_conversation_history_total (st : State) (id : string) :
  exists turns,
    get_conversation_history id st = (Ok turns, st)
    /\ match conversations (self st) !! id with
       | None => turns = []
       | Some recorded => turns = recorded
       end.
Proof.
  exists (history st id). split.
  - unfold get_conversation_history. run. reflexivity.
  - unfold history. destruct (conversations (self st) !! id); reflexivity.
Qed.

(** C7.  Indexing an empty sequence of documents returns without error
    and changes nothing, in every state, also when there is no vector
    store; indexing a non-empty sequence with no vector store raises
    [ValueError]. *)
Theorem index_documents_empty_is_noop (env : Env)
    (metadatas : option (list (gmap string string))) (st : State) :
  index_documents env [] metadatas st = (Ok tt, st)
  /\ (forall doc docs,
        vector_store (self st) = None ->
        exists msg,
          index_documents env (doc :: docs) metadatas st
          = (Raise (ValueError msg), st)).
Proof.
  split.
  - reflexivity.
  - intros doc docs Hvs. unfold index_documents. run. rewrite Hvs.
    eexists. reflexivity.
Qed.

(** A chatbot whose vector store could not be opened accepts the empty
    input and refuses one document. *)
Lemma index_documents_empty_is_noop_witness :
  vector_store (self (fresh_bot (without_chroma honest))) = None
  /\ index_documents (without_chroma honest) [] None
       (fresh_bot (without_chroma honest))
     = (Ok tt, fresh_bot (without_chroma honest))
  /\ exists msg,
       index_documents (without_chroma honest) [page_content paris] None
         (fresh_bot (without_chroma honest))
       = (Raise (ValueError msg), fresh_bot (without_chroma honest)).
Proof.
  destruct (index_documents_empty_is_noop (without_chroma honest) None
              (fresh_bot (without_chroma honest))) as [Hempty Hraise].
  split; [vm_compute; reflexivity|]. split; [exact Hempty|].
  apply Hraise. vm_compute. reflexivity.
Defined.

(** ** GROUNDED mode *)

(** The two errors of the chain: retrieval, and generation on the prompt
    filled with the retrieved documents. *)
Lemma grounded_answer_retrieval_error (env : Env) (chain : QAChain)
    (message : string) (st : State) (x : exn) :
  similarity_search env (now st) (collection st) message (search_k chain)
    = Raise x ->
  grounded_answer env chain message st = (Raise x, tick st).
Proof.
  intros Hs. unfold grounded_answer, qa_chain_invoke, retrieve. run.
  rewrite Hs. reflexivity.
Qed.

Lemma grounded_answer_generation_error (env : Env) (chain : QAChain)
    (message : string) (st : State) (docs : list Document) (x : exn) :
  similarity_search env (now st) (collection st) message (search_k chain)
    = Ok docs ->
  llm env (S (now st)) (format_prompt (format_docs docs) message) = Raise x ->
  grounded_answer env chain message st = (Raise x, tick (tick st)).
Proof.
  intros Hs Hl. unfold grounded_answer, qa_chain_invoke, retrieve, llm_invoke.
  run. rewrite Hs. cbn. rewrite Hl. reflexivity.
Qed.

Lemma length_append (s1 s2 : string) :
  String.length (s1 +:+ s2) = String.length s1 + String.length s2.
Proof.
  induction s1 as [|c s1 IH]; [reflexivity|].
  change (S (String.length (s1 +:+ s2))
          = S (String.length s1 + String.length s2)).
  rewrite IH. reflexivity.
Qed.

Lemma length_slice_to (n : nat) : forall s : string,
  String.length (slice_to n s) = Nat.min n (String.length s).
Proof.
  unfold slice_to. induction n as [|n IH]; intros [|c s]; cbn; try reflexivity.
  rewrite IH. reflexivity.
Qed.

Lemma slice_to_short (n : nat) : forall s : string,
  String.length s <= n -> slice_to n s = s.
Proof.
  unfold slice_to. induction n as [|n IH]; intros [|c s] Hlen; cbn in *;
    try reflexivity; try lia.
  rewrite IH by lia. reflexivity.
Qed.

(** The marker is there whatever the length of the text. *)
Lemma preview_marker (doc : Document) :
  String.length (preview doc)
    = Nat.min 200 (String.length (page_content doc)) + 3
  /\ (String.length (page_content doc) <= 200 ->
        preview doc = page_content doc +:+ "...").
Proof.
  unfold preview. split.
  - rewrite length_append, length_slice_to. reflexivity.
  - intros Hlen. rewrite slice_to_short by assumption. reflexivity.
Qed.

(** What a successful grounded answer is made of. *)
Lemma grounded_answer_returns (env : Env) (chain : QAChain)
    (message : string) (st st2 : State) (a : string) (srcs : list string) :
  grounded_answer env chain message st = (Ok (a, srcs), st2) ->
  exists docs,
    srcs = map preview docs
    /\ (docs = []
        \/ exists t, similarity_search env t (collection st) message 3
                     = Ok docs).
Proof.
  unfold grounded_answer, qa_chain_invoke, vector_store_truth, retrieve,
    llm_invoke. run.
  destruct (similarity_search env (now st) (collection st) message
              (search_k chain)) as [docs0|]; cbn; [|discriminate].
  destruct (llm env (S (now st)) _) as [response|]; cbn; [|discriminate].
  destruct (vector_store (self st)) as [handle|]; cbn.
  - destruct (store_truth env (S (S (now st))) (collection st))
      as [[|]|]; cbn; try discriminate.
    + destruct (similarity_search env (S (S (S (now st)))) (collection st)
                  message 3) as [docs|] eqn:Hdocs; cbn; [|discriminate].
      intros H. injection H as <- <- <-. exists docs. split; [reflexivity|].
      right. eexists. exact Hdocs.
    + intros H. injection H as <- <- <-. exists []. split; [reflexivity|].
      left. reflexivity.
  - intros H. injection H as <- <- <-. exists []. split; [reflexivity|].
    left. reflexivity.
Qed.

Lemma respond_grounded (env : Env) (chain : QAChain) (message : string)
    (st : State) :
  qa_chain (self st) = Some chain ->
  respond env message st =
    match grounded_answer env chain message st with
    | (Ok a, st2) => (Ok a, st2)
    | (Raise _, st2) =>
        match llm env (now st2) message with
        | Ok response => (Ok (answer_of response, []), tick st2)
        | Raise e => (Raise e, tick st2)
        end
    end.
Proof.
  intros Hqa. unfold respond. run. rewrite Hqa.
  destruct (grounded_answer env chain message st) as [[a|x] st2];
    [reflexivity|].
  unfold direct_answer, llm_invoke. run.
  destruct (llm env (now st2) message); reflexivity.
Qed.

(** C4, as amended.  For every chat call answered in GROUNDED mode, each
    entry of [sources] is the first 200 characters of a retrieved
    document's text followed by the marker, which is appended whatever the
    length of the text: a document of 200 characters or fewer appears in
    full, followed by the marker. *)
Theorem chat_sources_are_previews
    (env : Env) (message : string) (cid : option string) (st st2 : State)
    (chain : QAChain) (a : string) (srcs : list string) :
  qa_chain (self st) = Some chain ->
  grounded_answer env chain message (begun env message cid st)
    = (Ok (a, srcs), st2) ->
  fst (chat env message cid st)
    = Ok {| answer := a;
            conversation_id := resolved_id env cid st;
            sources := srcs |}
  /\ (exists docs,
        srcs = map preview docs
        /\ (docs = []
            \/ exists t, similarity_search env t (collection st) message 3
                         = Ok docs))
  /\ (forall doc,
        preview doc = slice_to 200 (page_content doc) +:+ "..."
        /\ String.length (preview doc)
           = Nat.min 200 (String.length (page_content doc)) + 3
        /\ (String.length (page_content doc) <= 200 ->
              preview doc = page_content doc +:+ "...")).
Proof.
  intros Hqa Hg. split; [|split].
  - rewrite chat_eq, (respond_grounded env chain).
    + rewrite Hg. reflexivity.
    + destruct (begun_qa_chain env message cid st) as [-> _]. assumption.
  - destruct (grounded_answer_returns env chain message _ _ _ _ Hg)
      as (docs & Hsrcs & Hdocs).
    exists docs. split; [assumption|].
    destruct (begun_qa_chain env message cid st) as (_ & _ & Hcoll).
    rewrite Hcoll in Hdocs. assumption.
  - intros doc. split; [reflexivity|]. apply preview_marker.
Qed.

(** A question on a chatbot that has indexed one short document. *)
Lemma chat_sources_are_previews_witness :
  fst (chat honest "What is the capital of France?" (Some "c1")
         (indexed_bot honest))
  = Ok {| answer :=
            "re: " +:+ format_prompt (page_content paris)
                                     "What is the capital of France?";
          conversation_id := "c1";
          sources := [page_content paris +:+ "..."] |}.
Proof.
  destruct (grounded_answer honest {| search_k := 3 |}
              "What is the capital of France?"
              (begun honest "What is the capital of France?" (Some "c1")
                     (indexed_bot honest)))
    as [[[a srcs]|x] st2] eqn:Hg; [|vm_compute in Hg; discriminate Hg].
  destruct (chat_sources_are_previews honest
              "What is the capital of France?" (Some "c1")
              (indexed_bot honest) st2 {| search_k := 3 |} a srcs)
    as [Hchat _].
  - vm_compute. reflexivity.
  - exact Hg.
  - rewrite Hchat. vm_compute in Hg. injection Hg as <- <- _.
    vm_compute. reflexivity.
Defined.

(** C4, as stated, fails: a retrieved document of 31 characters appears
    in [sources] with the marker appended, not unmodified. *)
Lemma chat_short_source_has_marker :
  String.length (page_content paris) = 31
  /\ fst (chat honest "What is the capital of France?" (Some "c1")
            (indexed_bot honest))
     = Ok {| answer :=
               "re: " +:+ format_prompt (page_content paris)
                                        "What is the capital of France?";
             conversation_id := "c1";
             sources := ["Paris is the capital of France...."] |}.
Proof. vm_compute. split; reflexivity. Qed.

(** C1, as amended.  For every chat call in GROUNDED mode, if retrieval or
    generation raises any error, that error is not propagated: the message
    is submitted directly to the generative model, and when this call
    returns, the chat call returns its answer with the empty sequence as
    sources; when the direct call raises as well, its error propagates. *)
Theorem chat_grounded_fallback
    (env : Env) (message : string) (cid : option string) (st st2 : State)
    (chain : QAChain) (x : exn) :
  qa_chain (self st) = Some chain ->
  grounded_answer env chain message (begun env message cid st)
    = (Raise x, st2) ->
  fst (chat env message cid st)
    = match llm env (now st2) message with
      | Ok response =>
          Ok {| answer := answer_of response;
                conversation_id := resolved_id env cid st;
                sources := [] |}
      | Raise e => Raise e
      end.
Proof.
  intros Hqa Hg.
  rewrite chat_eq, (respond_grounded env chain).
  - rewrite Hg. destruct (llm env (now st2) message); reflexivity.
  - destruct (begun_qa_chain env message cid st) as [-> _]. assumption.
Qed.

(** The store goes down after indexing and the model is up: the question
    is answered directly. *)
Lemma chat_grounded_fallback_witness :
  fst (chat (store_outage_from 8) "What is the capital of France?"
         (Some "c1") (indexed_bot (store_outage_from 8)))
  = Ok {| answer := "re: What is the capital of France?";
          conversation_id := "c1";
          sources := [] |}.
Proof.
  destruct (grounded_answer (store_outage_from 8) {| search_k := 3 |}
              "What is the capital of France?"
              (begun (store_outage_from 8) "What is the capital of France?"
                     (Some "c1") (indexed_bot (store_outage_from 8))))
    as [[[a srcs]|x] st2] eqn:Hg; [vm_compute in Hg; discriminate Hg|].
  rewrite (chat_grounded_fallback (store_outage_from 8)
             "What is the capital of France?" (Some "c1")
             (indexed_bot (store_outage_from 8)) st2 {| search_k := 3 |} x).
  - vm_compute in Hg. injection Hg as _ <-. vm_compute. reflexivity.
  - vm_compute. reflexivity.
  - exact Hg.
Defined.

(** C1, as stated, fails: when the model is down as well, the direct call
    raises and the chat call raises with it. *)
Lemma chat_fallback_can_raise :
  mode (indexed_bot (outage_from 8)) = GROUNDED
  /\ fst (grounded_answer (outage_from 8) {| search_k := 3 |}
            "What is the capital of France?"
            (begun (outage_from 8) "What is the capital of France?"
                   (Some "c1") (indexed_bot (outage_from 8))))
     = Raise (LibraryError "store unavailable")
  /\ fst (chat (outage_from 8) "What is the capital of France?" (Some "c1")
            (indexed_bot (outage_from 8)))
     = Raise (LibraryError "model unavailable").
Proof. vm_compute. repeat split; reflexivity. Qed.

(** ** Mode selection *)

(** The refresh sets the mode by the readiness of the store at the time of
    the refresh. *)
Lemma update_qa_chain_mode (env : Env) (st : State) :
  mode (snd (_update_qa_chain env st))
  = if store_ready env st then GROUNDED else DIRECT.
Proof.
  unfold _update_qa_chain, count, store_ready, mode. run.
  destruct (vector_store (self st)) as [handle|]; cbn; [|reflexivity].
  destruct (collection_count env (now st) (collection st)) as [[|n]|];
    reflexivity.
Qed.

Lemma update_qa_chain_collection (env : Env) (st : State) :
  fst (_update_qa_chain env st) = Ok tt
  /\ collection (snd (_update_qa_chain env st)) = collection st.
Proof.
  unfold _update_qa_chain, count. run.
  destruct (vector_store (self st)) as [handle|]; cbn; [|auto].
  destruct (collection_count env (now st) (collection st)) as [[|n]|];
    cbn; auto.
Qed.

(** [chat] never refreshes: the mode after a call is the mode before. *)
Lemma chat_keeps_mode (env : Env) (message : string) (cid : option string)
    (st : State) :
  mode (snd (chat env message cid st)) = mode st.
Proof.
  unfold mode.
  destruct (begun_qa_chain env message cid st) as (Hqa & _ & _).
  destruct (chat_outcome env message cid st)
    as [(a & srcs & st2 & _ & Hs & Heq) | (e & st2 & _ & Hs & Heq)];
    rewrite Heq; cbn [snd].
  - unfold ended. cbn. rewrite Hs, Hqa. reflexivity.
  - rewrite Hs, Hqa. reflexivity.
Qed.

Lemma chats_from_keep_mode (env : Env) (st0 st : State) :
  chats_from env st0 st -> mode st = mode st0.
Proof.
  induction 1 as [|st message cid _ IH]; [reflexivity|].
  rewrite chat_keeps_mode. assumption.
Qed.

(** In DIRECT mode a call is the model's answer to the message alone. *)
Lemma chat_direct (env : Env) (message : string) (cid : option string)
    (st : State) :
  mode st = DIRECT ->
  fst (chat env message cid st)
  = match llm env (now (begun env message cid st)) message with
    | Ok response =>
        Ok {| answer := answer_of response;
              conversation_id := resolved_id env cid st;
              sources := [] |}
    | Raise e => Raise e
    end.
Proof.
  unfold mode. intros Hmode.
  assert (Hqa : qa_chain (self st) = None).
  { destruct (qa_chain (self st)); [discriminate|reflexivity]. }
  rewrite chat_eq, respond_direct.
  - destruct (llm env (now (begun env message cid st)) message); reflexivity.
  - destruct (begun_qa_chain env message cid st) as [-> _]. assumption.
Qed.

Lemma refresh_on_empty_collection (env : Env) (st : State) :
  (forall t' n, collection_count env t' [] = Ok n -> n = 0) ->
  collection st = [] ->
  mode (snd (_update_qa_chain env st)) = DIRECT.
Proof.
  intros Hcount Hcoll. rewrite update_qa_chain_mode.
  unfold store_ready. rewrite Hcoll.
  destruct (vector_store (self st)); [|reflexivity].
  destruct (collection_count env (now st) []) as [[|n]|] eqn:Hc;
    try reflexivity.
  specialize (Hcount _ _ Hc). discriminate.
Qed.

(** A chatbot constructed on an empty collection is in DIRECT mode, as
    long as the count of an empty collection is not a positive number. *)
Lemma new_chatbot_empty_mode (env : Env) (dir : string) (t : nat)
    (st0 : State) :
  (forall t' n, collection_count env t' [] = Ok n -> n = 0) ->
  new_chatbot env dir [] t = (Ok tt, st0) ->
  mode st0 = DIRECT.
Proof.
  intros Hcount. unfold new_chatbot, __init__.
  destruct (negb (str_truthy (GROQ_API_KEY env))); [discriminate|].
  run.
  destruct (new_embeddings env t); cbn; [discriminate|].
  destruct (negb (ChatGroq_installed env)); cbn; [discriminate|].
  destruct (new_llm env (S t)); cbn; [discriminate|].
  destruct (makedirs env (S (S t))); cbn; [discriminate|].
  destruct (new_chroma env (S (S (S t)))); cbn;
    match goal with
    | |- context [_update_qa_chain env ?s] =>
        pose proof (refresh_on_empty_collection env s Hcount eq_refl) as Hmode;
        destruct (_update_qa_chain env s) as [[[]|e'] st2]
    end; cbn; try discriminate;
    intros H; injection H as <-; exact Hmode.
Qed.

(** *** What the mode of a call is read off *)

Lemma chat_direct_outcome (env : Env) (message : string)
    (cid : option string) (st : State) :
  mode st = DIRECT ->
  chat env message cid st = direct_outcome env message cid st.
Proof.
  unfold mode, direct_outcome. intros Hmode.
  assert (Hqa : qa_chain (self st) = None).
  { destruct (qa_chain (self st)); [discriminate|reflexivity]. }
  rewrite chat_eq, respond_direct.
  - destruct (llm env (now (begun env message cid st)) message); reflexivity.
  - destruct (begun_qa_chain env message cid st) as [-> _]. assumption.
Qed.

(** The body of the [try] starts with a retrieval: it has made two service
    calls at least when it returns, and one at least when it raises. *)
Lemma grounded_answer_calls (env : Env) (chain : QAChain) (message : string)
    (st : State) :
  match grounded_answer env chain message st with
  | (Ok _, st2) => 2 + now st <= now st2
  | (Raise _, st2) => 1 + now st <= now st2
  end.
Proof.
  unfold grounded_answer, qa_chain_invoke, vector_store_truth, retrieve,
    llm_invoke. run.
  destruct (similarity_search env (now st) (collection st) message
              (search_k chain)) as [docs0|]; cbn; [|lia].
  destruct (llm env (S (now st)) _) as [response|]; cbn; [|lia].
  destruct (vector_store (self st)) as [handle|]; cbn; [|lia].
  destruct (store_truth env (S (S (now st))) (collection st))
    as [[|]|]; cbn; try lia.
  destruct (similarity_search env (S (S (S (now st)))) (collection st)
              message 3) as [docs|]; cbn; lia.
Qed.

(** With a chain the response takes two service calls at least: the
    retrieval, and then the model on the filled prompt or, when the
    retrieval raised, on the message. *)
Lemma respond_grounded_calls (env : Env) (chain : QAChain) (message : string)
    (st : State) :
  qa_chain (self st) = Some chain ->
  2 + now st <= now (snd (respond env message st)).
Proof.
  intros Hqa. rewrite (respond_grounded env chain) by assumption.
  pose proof (grounded_answer_calls env chain message st) as H.
  destruct (grounded_answer env chain message st) as [[a|x] st2];
    cbn [snd]; [exact H|].
  destruct (llm env (now st2) message); cbn; lia.
Qed.

Lemma chat_grounded_calls (env : Env) (message : string)
    (cid : option string) (st : State) (chain : QAChain) :
  qa_chain (self st) = Some chain ->
  2 + now (begun env message cid st) <= now (snd (chat env message cid st)).
Proof.
  intros Hqa. rewrite chat_eq.
  assert (Hb : qa_chain (self (begun env message cid st)) = Some chain).
  { destruct (begun_qa_chain env message cid st) as [-> _]. assumption. }
  pose proof (respond_grounded_calls env chain message _ Hb) as H.
  destruct (respond env message (begun env message cid st))
    as [[[a srcs]|e] st2]; exact H.
Qed.

Lemma direct_outcome_calls (env : Env) (message : string)
    (cid : option string) (st : State) :
  now (snd (direct_outcome env message cid st))
  = 1 + now (begun env message cid st).
Proof.
  unfold direct_outcome.
  destruct (llm env (now (begun env message cid st)) message); reflexivity.
Qed.

(** [chat] never assigns [self.qa_chain]. *)
Lemma chat_keeps_chain (env : Env) (message : string) (cid : option string)
    (st : State) :
  qa_chain (self (snd (chat env message cid st))) = qa_chain (self st).
Proof.
  destruct (begun_qa_chain env message cid st) as (Hqa & _ & _).
  destruct (chat_outcome env message cid st)
    as [(a & srcs & st2 & _ & Hs & Heq) | (e & st2 & _ & Hs & Heq)];
    rewrite Heq; cbn [snd].
  - unfold ended. cbn. rewrite Hs, Hqa. reflexivity.
  - rewrite Hs, Hqa. reflexivity.
Qed.

(** *** Where the chain is refreshed *)

(** The refresh that ends a construction is made when four more calls
    have been served, on the collection as the construction found it. *)
Lemma new_chatbot_mode (env : Env) (dir : string) (coll : list Document)
    (t : nat) (st0 : State) :
  new_chatbot env dir coll t = (Ok tt, st0) ->
  collection st0 = coll
  /\ mode st0
     = if store_ready env (at_time (4 + t) st0) then GROUNDED else DIRECT.
Proof.
  unfold new_chatbot, __init__.
  destruct (negb (str_truthy (GROQ_API_KEY env))); [discriminate|].
  run.
  destruct (new_embeddings env t); cbn; [discriminate|].
  destruct (negb (ChatGroq_installed env)); cbn; [discriminate|].
  destruct (new_llm env (S t)); cbn; [discriminate|].
  destruct (makedirs env (S (S t))); cbn; [discriminate|].
  unfold _update_qa_chain, count. run.
  destruct (new_chroma env (S (S (S t)))); cbn.
  - intros H. injection H as <-. split; reflexivity.
  - destruct (collection_count env (S (S (S (S t)))) coll) as [[|n]|] eqn:Hc;
      cbn; intros H; injection H as <-;
      unfold mode, store_ready, at_time; cbn; rewrite Hc; split; reflexivity.
Qed.

(** The refresh that ends a successful indexing is made after the two
    store calls, on the collection that [add_documents] left. *)
Lemma index_documents_refresh (env : Env) (documents : list string)
    (metadatas : option (list (gmap string string))) (st : State) :
  documents <> [] ->
  fst (index_documents env documents metadatas st) = Ok tt ->
  collection (snd (index_documents env documents metadatas st))
  = fst (add_to_collection env (now st) (collection st)
           (RAGExtra.make_documents documents metadatas))
  /\ mode (snd (index_documents env documents metadatas st))
     = if store_ready env
            (at_time (2 + now st)
               (snd (index_documents env documents metadatas st)))
       then GROUNDED else DIRECT.
Proof.
  unfold index_documents, add_documents, persist, RAGExtra.make_documents.
  destruct documents as [|doc docs]; [congruence|]. intros _.
  run. destruct (vector_store (self st)) as [handle|] eqn:Hvs; cbn;
    [|discriminate].
  destruct (add_to_collection env (now st) (collection st) _)
    as [coll [e|]]; cbn; [discriminate|].
  destruct (persist_collection env (S (now st)) coll) as [e|]; cbn;
    [discriminate|].
  intros _. unfold _update_qa_chain, count. run. rewrite Hvs. cbn.
  destruct (collection_count env (S (S (now st))) coll) as [[|n]|] eqn:Hc;
    cbn; unfold mode, store_ready, at_time; cbn; rewrite Hvs, Hc;
    split; reflexivity.
Qed.

(** An indexing that receives no document, or that raises, leaves the
    chatbot object as it was. *)
Lemma index_documents_no_refresh (env : Env) (documents : list string)
    (metadatas : option (list (gmap string string))) (st : State) :
  documents = [] \/ fst (index_documents env documents metadatas st) <> Ok tt ->
  self (snd (index_documents env documents metadatas st)) = self st.
Proof.
  destruct documents as [|doc docs]; [reflexivity|].
  intros [H|H]; [discriminate H|]. revert H.
  unfold index_documents, add_documents, persist. run.
  destruct (vector_store (self st)) as [handle|]; cbn; [|reflexivity].
  destruct (add_to_collection env (now st) (collection st) _)
    as [coll [e|]]; cbn; [reflexivity|].
  destruct (persist_collection env (S (now st)) coll) as [e|]; cbn;
    [reflexivity|].
  match goal with
  | |- context [_update_qa_chain env ?s] =>
      pose proof (update_qa_chain_collection env s) as [Hok _]
  end.
  intros H. contradiction.
Qed.

(** C2, as amended.  A chat call answers in DIRECT mode (one service
    call, to the model, on the message alone; sources the empty sequence)
    exactly when the chatbot holds no retrieval chain.  The chain is a
    cached attribute: it is rebuilt by the refresh that ends the
    construction and every successful indexing of at least one document,
    where it is dropped exactly when the store handle is missing, the size
    check raises or the store is empty at the time of the refresh, which
    is after the documents were added and persisted; an indexing that
    raises or receives no document, and chat calls, never assign it.  In
    particular a chatbot constructed on an empty store, on which no
    document is indexed, stays in DIRECT mode and every chat call that
    returns has no sources. *)
Theorem chat_mode_is_cached (env : Env) :
  (forall message cid st,
      chat env message cid st = direct_outcome env message cid st
      <-> mode st = DIRECT)
  /\ (forall st,
        mode (snd (_update_qa_chain env st)) = DIRECT
        <-> store_ready env st = false)
  /\ (forall dir coll t st0,
        new_chatbot env dir coll t = (Ok tt, st0) ->
        collection st0 = coll
        /\ mode st0
           = if store_ready env (at_time (4 + t) st0)
             then GROUNDED else DIRECT)
  /\ (forall documents metadatas st,
        documents <> [] ->
        fst (index_documents env documents metadatas st) = Ok tt ->
        collection (snd (index_documents env documents metadatas st))
        = fst (add_to_collection env (now st) (collection st)
                 (RAGExtra.make_documents documents metadatas))
        /\ mode (snd (index_documents env documents metadatas st))
           = if store_ready env
                  (at_time (2 + now st)
                     (snd (index_documents env documents metadatas st)))
             then GROUNDED else DIRECT)
  /\ (forall documents metadatas st,
        documents = []
        \/ fst (index_documents env documents metadatas st) <> Ok tt ->
        qa_chain (self (snd (index_documents env documents metadatas st)))
        = qa_chain (self st))
  /\ (forall message cid st,
        qa_chain (self (snd (chat env message cid st))) = qa_chain (self st))
  /\ (forall dir t st0 st message cid r st',
        (forall t' n, collection_count env t' [] = Ok n -> n = 0) ->
        new_chatbot env dir [] t = (Ok tt, st0) ->
        chats_from env st0 st ->
        chat env message cid st = (Ok r, st') ->
        mode st = DIRECT /\ sources r = []).
Proof.
  repeat apply conj.
  - intros message cid st. split; [|apply chat_direct_outcome].
    intros Heq. unfold mode.
    destruct (qa_chain (self st)) as [chain|] eqn:Hqa; [|reflexivity].
    pose proof (chat_grounded_calls env message cid st chain Hqa) as Hcalls.
    rewrite Heq, direct_outcome_calls in Hcalls. lia.
  - intros st. rewrite update_qa_chain_mode.
    destruct (store_ready env st); split; congruence.
  - apply new_chatbot_mode.
  - apply index_documents_refresh.
  - intros documents metadatas st H.
    rewrite (index_documents_no_refresh env documents metadatas st H).
    reflexivity.
  - apply chat_keeps_chain.
  - intros dir t st0 st message cid r st' Hcount Hnew Hreach Hchat.
    assert (Hmode : mode st = DIRECT).
    { rewrite (chats_from_keep_mode env st0 st Hreach).
      apply (new_chatbot_empty_mode env dir t st0 Hcount Hnew). }
    split; [assumption|].
    pose proof (chat_direct env message cid st Hmode) as Hd.
    rewrite Hchat in Hd. cbn [fst] in Hd.
    destruct (llm env (now (begun env message cid st)) message);
      [|discriminate].
    injection Hd as ->. reflexivity.
Qed.

(** A second question on a chatbot constructed on an empty store is
    answered without sources; once a document is indexed the chatbot is
    in GROUNDED mode, and a question is no longer answered by the model
    alone. *)
Lemma chat_mode_is_cached_witness :
  (exists r st',
      chat honest "and Rome?" None
           (snd (chat honest "hello" None (fresh_bot honest))) = (Ok r, st')
      /\ sources r = [])
  /\ mode (indexed_bot honest) = GROUNDED
  /\ chat honest "What is the capital of France?" (Some "c1")
          (indexed_bot honest)
     <> direct_outcome honest "What is the capital of France?" (Some "c1")
          (indexed_bot honest).
Proof.
  destruct (chat_mode_is_cached honest)
    as (Hdirect & _ & _ & Hindex & _ & _ & Hempty).
  split; [|split].
  - destruct (chat honest "and Rome?" None
                (snd (chat honest "hello" None (fresh_bot honest))))
      as [[r|e] st'] eqn:Hchat; [|vm_compute in Hchat; discriminate Hchat].
    exists r, st'. split; [reflexivity|].
    destruct (Hempty "./chroma_db" 0 (fresh_bot honest)
                (snd (chat honest "hello" None (fresh_bot honest)))
                "and Rome?" None r st') as [_ Hsrc].
    + intros t' n H. vm_compute in H. injection H as <-. reflexivity.
    + vm_compute. reflexivity.
    + apply chats_more. apply chats_none.
    + exact Hchat.
    + exact Hsrc.
  - destruct (Hindex [page_content paris] None (fresh_bot honest))
      as [_ Hmode].
    + discriminate.
    + vm_compute. reflexivity.
    + unfold indexed_bot. rewrite Hmode. vm_compute. reflexivity.
  - intros Heq. apply Hdirect in Heq. vm_compute in Heq. discriminate Heq.
Defined.

(** C2, as stated, fails: the store was counted once, at construction,
    when it happened to fail; at the call it is reachable, its size check
    returns, it holds a document, and the call is answered in DIRECT
    mode. *)
Lemma chat_mode_ignores_store_at_call :
  mode glitched_bot = DIRECT
  /\ store_ready (store_glitch_at 4) glitched_bot = true
  /\ collection glitched_bot = [paris]
  /\ fst (chat (store_glitch_at 4) "What is the capital of France?"
            (Some "c1") glitched_bot)
     = Ok {| answer := "re: What is the capital of France?";
             conversation_id := "c1";
             sources := [] |}.
Proof. vm_compute. repeat split; reflexivity. Qed.

End RAGProofs.

(* ===================================================================== *)
(** * gpa_calculator.py: further properties *)
(* ===================================================================== *)

Module GPAExtraProofs.
Import Py Float64 GPA GPAExtra.

Lemma get_grade_points_value (g : string) :
  get_grade_points g
  = match grade_value g with
    | Some p => Ok p
    | None => Raise (ValueError (invalid_grade_message g))
    end.
Proof.
  unfold get_grade_points, grade_value.
  destruct (dict_get (strip (upper g)) GRADE_POINTS); reflexivity.
Qed.

(** The loop, from any accumulators: it stops at the first grade that is
    not recognised, and otherwise folds the two sums. *)
Lemma gpa_loop_eq (courses : list GPACourse) : forall tp tc : float,
  gpa_loop courses tp tc
  = match first_unrecognised courses with
    | Some c => Raise (ValueError (invalid_grade_message (grade c)))
    | None =>
        Ok (fold_left (fun acc c =>
                         add acc (mul (credits c)
                                      (default zero (grade_value (grade c)))))
                      courses tp,
            fold_left (fun acc c => add acc (credits c)) courses tc)
    end.
Proof.
  induction courses as [|c rest IH]; intros tp tc; [reflexivity|].
  cbn [gpa_loop first_unrecognised List.find fold_left].
  rewrite get_grade_points_value.
  destruct (grade_value (grade c)) as [p|]; cbn [rbind default]; [|reflexivity].
  apply IH.
Qed.

(** X1.  [calculate_gpa] in full: the empty list raises [ValueError] (no
    courses); otherwise the first course, in list order, whose grade is not
    recognised raises [ValueError] with a message quoting that grade as it
    was given; otherwise accumulated credits equal to zero raise
    [ValueError] (total credits); otherwise the three rounded values are
    returned.  No other outcome exists. *)
Theorem calculate_gpa_outcome (courses : list GPACourse) :
  calculate_gpa courses
  = match courses with
    | [] => Raise (ValueError "No courses provided")
    | _ =>
        match first_unrecognised courses with
        | Some c => Raise (ValueError (invalid_grade_message (grade c)))
        | None =>
            if eqb (credits_total courses) (of_Z 0) then
              Raise (ValueError "Total credits cannot be zero")
            else
              Ok {| gpa := round (div (points_total courses)
                                      (credits_total courses)) 2;
                    total_credits := round (credits_total courses) 2;
                    total_points := round (points_total courses) 2 |}
        end
    end.
Proof.
  destruct courses as [|c rest]; [reflexivity|].
  unfold calculate_gpa. rewrite gpa_loop_eq.
  destruct (first_unrecognised (c :: rest)); reflexivity.
Qed.

(** ** Zero credits *)

Lemma fold_zero_credits (courses : list GPACourse) :
  Forall (fun c => is_zero (credits c)) courses ->
  fold_left (fun acc c => add acc (credits c)) courses zero = zero.
Proof.
  induction courses as [|c rest IH]; intros Hall; [reflexivity|].
  inversion Hall as [|? ? Hc Hrest]; subst. cbn [fold_left].
  destruct (credits c) as [[]| | |]; try contradiction; cbn; apply IH;
    assumption.
Qed.

Lemma first_unrecognised_none (courses : list GPACourse) :
  Forall (fun c => recognised (grade c)) courses ->
  first_unrecognised courses = None.
Proof.
  induction courses as [|c rest IH]; intros Hall; [reflexivity|].
  inversion Hall as [|? ? Hc Hrest]; subst.
  cbn [first_unrecognised List.find]. unfold recognised in Hc.
  fold (grade_value (grade c)) in Hc.
  destruct (grade_value (grade c)); [|congruence].
  apply IH. assumption.
Qed.

(** X2.  A non-empty course list whose grades are all recognised and whose
    credits are all zero is refused with [ValueError] (total credits): the
    quotient is never taken on a zero total. *)
Theorem calculate_gpa_zero_credits (courses : list GPACourse) :
  courses <> [] ->
  Forall (fun c => recognised (grade c)) courses ->
  Forall (fun c => is_zero (credits c)) courses ->
  calculate_gpa courses = Raise (ValueError "Total credits cannot be zero").
Proof.
  intros Hne Hgrades Hzero.
  destruct courses as [|c rest] eqn:Hcs; [congruence|]. rewrite <- Hcs in *.
  unfold calculate_gpa. rewrite Hcs at 1. rewrite gpa_loop_eq.
  rewrite (first_unrecognised_none courses Hgrades).
  rewrite (fold_zero_credits courses Hzero). reflexivity.
Qed.

Lemma calculate_gpa_zero_credits_witness :
  calculate_gpa [course zero "A"; course (S754_zero true) " b+ "]
  = Raise (ValueError "Total credits cannot be zero").
Proof.
  apply calculate_gpa_zero_credits.
  - discriminate.
  - repeat constructor; unfold recognised; vm_compute; discriminate.
  - repeat constructor.
Defined.

(** ** Normal form of a grade *)

Lemma upper_char_space (c : ascii) : is_space (upper_char c) = is_space c.
Proof.
  destruct c as [[] [] [] [] [] [] [] []]; reflexivity.
Qed.

Lemma upper_char_idem (c : ascii) : upper_char (upper_char c) = upper_char c.
Proof.
  destruct c as [[] [] [] [] [] [] [] []]; reflexivity.
Qed.

Lemma upper_char_sharp_s (c : ascii) :
  sharp_s c = false -> sharp_s (upper_char c) = false.
Proof.
  destruct c as [[] [] [] [] [] [] [] []]; intros H; try reflexivity;
    discriminate H.
Qed.

Lemma sharp_s_space (c : ascii) : sharp_s c = true -> is_space c = false.
Proof.
  destruct c as [[] [] [] [] [] [] [] []]; intros H; try reflexivity;
    discriminate H.
Qed.

(** The upper-case form of a text that is not empty is not empty, and
    starts with white space when the text does. *)
Lemma upper_cons (c : ascii) (s : string) :
  exists c' r,
    upper (String c s) = String c' r /\ is_space c' = is_space c.
Proof.
  cbn [upper]. destruct (sharp_s c) eqn:Hc.
  - eexists _, _. split; [reflexivity|].
    rewrite (sharp_s_space c Hc). reflexivity.
  - eexists _, _. split; [reflexivity|]. apply upper_char_space.
Qed.

Lemma upper_idem (s : string) : upper (upper s) = upper s.
Proof.
  induction s as [|c s IH]; [reflexivity|].
  cbn [upper]. destruct (sharp_s c) eqn:Hc.
  - change (String "S" (String "S" (upper (upper s)))
            = String "S" (String "S" (upper s))).
    rewrite IH. reflexivity.
  - cbn [upper]. rewrite (upper_char_sharp_s c Hc), upper_char_idem, IH.
    reflexivity.
Qed.

Lemma lstrip_upper (s : string) : lstrip (upper s) = upper (lstrip s).
Proof.
  induction s as [|c s IH]; [reflexivity|].
  destruct (upper_cons c s) as (c' & r & Hu & Hsp).
  cbn [lstrip]. destruct (is_space c) eqn:Hc.
  - assert (Hs : sharp_s c = false).
    { destruct (sharp_s c) eqn:H; [|reflexivity].
      rewrite (sharp_s_space c H) in Hc. discriminate Hc. }
    cbn [upper]. rewrite Hs. cbn [lstrip].
    rewrite upper_char_space, Hc. exact IH.
  - rewrite Hu. cbn [lstrip]. rewrite Hsp. reflexivity.
Qed.

Lemma rstrip_cons (c : ascii) (s : string) :
  rstrip s <> EmptyString -> rstrip (String c s) = String c (rstrip s).
Proof.
  cbn [rstrip]. destruct (rstrip s); [congruence|reflexivity].
Qed.

Lemma rstrip_upper (s : string) : rstrip (upper s) = upper (rstrip s).
Proof.
  induction s as [|c s IH]; [reflexivity|].
  cbn [rstrip]. destruct (rstrip s) as [|c1 r1] eqn:Hr.
  - (* everything after [c] is white space *)
    cbn [upper] in IH. destruct (sharp_s c) eqn:Hc.
    + rewrite (sharp_s_space c Hc). cbn [upper]. rewrite Hc.
      cbn [rstrip]. rewrite IH. reflexivity.
    + cbn [upper]. rewrite Hc. cbn [rstrip]. rewrite IH, upper_char_space.
      destruct (is_space c); [reflexivity|].
      cbn [upper]. rewrite Hc. reflexivity.
  - (* something after [c] stays *)
    destruct (upper_cons c1 r1) as (c2 & r2 & Hu & _).
    assert (Hne : rstrip (upper s) <> EmptyString).
    { rewrite IH, Hu. discriminate. }
    cbn [upper]. destruct (sharp_s c).
    + rewrite rstrip_cons.
      * rewrite rstrip_cons by assumption. rewrite IH. reflexivity.
      * rewrite rstrip_cons by assumption. discriminate.
    + rewrite rstrip_cons by assumption. rewrite IH. reflexivity.
Qed.

Lemma strip_upper (s : string) : strip (upper s) = upper (strip s).
Proof. unfold strip. rewrite lstrip_upper, rstrip_upper. reflexivity. Qed.

Lemma lstrip_clean (s : string) : starts_clean (lstrip s).
Proof.
  induction s as [|c s IH]; [exact I|].
  cbn [lstrip]. destruct (is_space c) eqn:Hc; [assumption|exact Hc].
Qed.

Lemma lstrip_of_clean (s : string) : starts_clean s -> lstrip s = s.
Proof.
  destruct s as [|c s]; [reflexivity|]. cbn. intros ->. reflexivity.
Qed.

Lemma rstrip_clean (s : string) : starts_clean s -> starts_clean (rstrip s).
Proof.
  destruct s as [|c s]; [intros _; exact I|]. cbn [starts_clean rstrip].
  intros Hc. destruct (rstrip s); [rewrite Hc|]; exact Hc.
Qed.

Lemma rstrip_idem (s : string) : rstrip (rstrip s) = rstrip s.
Proof.
  induction s as [|c s IH]; [reflexivity|].
  cbn [rstrip]. destruct (rstrip s) as [|c' r] eqn:Hr.
  - destruct (is_space c) eqn:Hc; [reflexivity|].
    cbn [rstrip]. rewrite Hc. reflexivity.
  - cbn [rstrip] in *. rewrite IH. reflexivity.
Qed.

Lemma strip_idem (s : string) : strip (strip s) = strip s.
Proof.
  unfold strip.
  rewrite (lstrip_of_clean (rstrip (lstrip s)))
    by (apply rstrip_clean, lstrip_clean).
  apply rstrip_idem.
Qed.

Lemma lstrip_all_space (s : string) :
  all_space s = true -> lstrip s = EmptyString.
Proof.
  induction s as [|c s IH]; [reflexivity|].
  cbn [all_space lstrip]. intros H. apply andb_prop in H as [-> Hs].
  apply IH. assumption.
Qed.

Lemma rstrip_all_space (s : string) :
  all_space s = true -> rstrip s = EmptyString.
Proof.
  induction s as [|c s IH]; [reflexivity|].
  cbn [all_space rstrip]. intros H. apply andb_prop in H as [-> Hs].
  rewrite (IH Hs). reflexivity.
Qed.

Lemma lstrip_padded (pre s : string) :
  all_space pre = true -> lstrip (pre +:+ s) = lstrip s.
Proof.
  induction pre as [|c pre IH]; [reflexivity|].
  cbn [all_space]. intros H. apply andb_prop in H as [Hc Hpre].
  change (lstrip (String c (pre +:+ s)) = lstrip s).
  cbn [lstrip]. rewrite Hc. apply IH. assumption.
Qed.

Lemma rstrip_padded (s post : string) :
  all_space post = true -> rstrip (s +:+ post) = rstrip s.
Proof.
  intros Hpost. induction s as [|c s IH].
  - apply rstrip_all_space. assumption.
  - change (rstrip (String c (s +:+ post)) = rstrip (String c s)).
    cbn [rstrip]. rewrite IH. reflexivity.
Qed.

Lemma strip_padded_right (s post : string) :
  all_space post = true -> strip (s +:+ post) = strip s.
Proof.
  intros Hpost. unfold strip. induction s as [|c s IH].
  - change (rstrip (lstrip post) = EmptyString).
    rewrite (lstrip_all_space post Hpost). reflexivity.
  - change (rstrip (lstrip (String c (s +:+ post)))
            = rstrip (lstrip (String c s))).
    cbn [lstrip]. destruct (is_space c); [assumption|].
    change (rstrip (String c s +:+ post) = rstrip (String c s)).
    apply rstrip_padded. assumption.
Qed.

Lemma strip_padded (pre s post : string) :
  all_space pre = true -> all_space post = true ->
  strip (pre +:+ s +:+ post) = strip s.
Proof.
  intros Hpre Hpost.
  transitivity (strip (s +:+ post)); [|apply strip_padded_right; assumption].
  unfold strip. rewrite lstrip_padded by assumption. reflexivity.
Qed.

Lemma upper_append (s t : string) : upper (s +:+ t) = upper s +:+ upper t.
Proof.
  induction s as [|c s IH]; [reflexivity|].
  change (upper (String c (s +:+ t)) = upper (String c s) +:+ upper t).
  cbn [upper]. rewrite IH. destruct (sharp_s c); reflexivity.
Qed.

Lemma all_space_upper (s : string) : all_space (upper s) = all_space s.
Proof.
  induction s as [|c s IH]; [reflexivity|].
  cbn [upper all_space]. destruct (sharp_s c) eqn:Hc.
  - rewrite (sharp_s_space c Hc). reflexivity.
  - cbn [all_space]. rewrite upper_char_space, IH. reflexivity.
Qed.

(** X3.  A grade is looked up in a normal form: surrounding white space
    and letter case are ignored, so a grade, its upper-case form, its
    stripped form and any padding of it with white space all have the same
    grade points (or are all refused). *)
Theorem grade_value_normal_form (pre g post : string) :
  all_space pre = true ->
  all_space post = true ->
  grade_value (pre +:+ g +:+ post) = grade_value g
  /\ grade_value (upper g) = grade_value g
  /\ grade_value (strip g) = grade_value g.
Proof.
  intros Hpre Hpost. unfold grade_value. repeat split.
  - rewrite !upper_append, strip_padded
      by (rewrite all_space_upper; assumption).
    reflexivity.
  - rewrite upper_idem. reflexivity.
  - rewrite strip_upper, strip_idem, <- strip_upper. reflexivity.
Qed.

Lemma grade_value_normal_form_witness :
  grade_value ("  " +:+ "b+" +:+ " ") = Some (lit 33 1)
  /\ grade_value "b+" = Some (lit 33 1).
Proof.
  destruct (grade_value_normal_form "  " "b+" " " eq_refl eq_refl)
    as (Hpad & _ & _).
  rewrite Hpad. split; vm_compute; reflexivity.
Defined.

(** ** Range of the grade points *)

Lemma dict_get_in {V} (k : string) (d : list (string * V)) (v : V) :
  dict_get k d = Some v -> In v (map snd d).
Proof.
  induction d as [|[k' v'] d IH]; [discriminate|].
  cbn [dict_get map snd]. destruct (String.eqb k k').
  - intros H. injection H as <-. left. reflexivity.
  - intros H. right. apply IH. assumption.
Qed.

(** X4.  Whatever the grade text, the grade points [get_grade_points]
    returns lie between 0.0 and 4.0, as its docstring says. *)
Theorem get_grade_points_range (g : string) (p : float) :
  get_grade_points g = Ok p ->
  leb (lit 0 1) p = true /\ leb p (lit 40 1) = true.
Proof.
  rewrite get_grade_points_value.
  destruct (grade_value g) as [q|] eqn:Hq; [|discriminate].
  intros H. injection H as <-.
  apply dict_get_in in Hq. cbn [GRADE_POINTS map snd] in Hq.
  repeat (destruct Hq as [<- | Hq]; [split; vm_compute; reflexivity|]).
  destruct Hq.
Qed.

Lemma get_grade_points_range_witness :
  leb (lit 0 1) (lit 17 1) = true /\ leb (lit 17 1) (lit 40 1) = true.
Proof.
  apply (get_grade_points_range " c- "). vm_compute. reflexivity.
Defined.

End GPAExtraProofs.

(* ===================================================================== *)
(** * rag_chatbot.py: further properties *)
(* ===================================================================== *)

Module RAGExtraProofs.
Import Py RAG RAGExtra RAGProofs.
Local Close Scope Z_scope.

(** ** What each method leaves alone *)

Lemma update_qa_chain_self (env : Env) (st : State) :
  vector_store (self (snd (_update_qa_chain env st))) = vector_store (self st)
  /\ conversations (self (snd (_update_qa_chain env st)))
     = conversations (self st)
  /\ persist_directory (self (snd (_update_qa_chain env st)))
     = persist_directory (self st)
  /\ chain_needs_store (self (snd (_update_qa_chain env st))).
Proof.
  unfold _update_qa_chain, count, chain_needs_store. run.
  destruct (vector_store (self st)) as [handle|] eqn:Hvs; cbn.
  - destruct (collection_count env (now st) (collection st)) as [[|n]|];
      cbn; rewrite ?Hvs; repeat split; congruence.
  - rewrite Hvs. repeat split; congruence.
Qed.

Lemma index_documents_self (env : Env) (documents : list string)
    (metadatas : option (list (gmap string string))) (st : State) :
  vector_store (self (snd (index_documents env documents metadatas st)))
  = vector_store (self st)
  /\ conversations (self (snd (index_documents env documents metadatas st)))
     = conversations (self st)
  /\ persist_directory
       (self (snd (index_documents env documents metadatas st)))
     = persist_directory (self st)
  /\ (chain_needs_store (self st) ->
      chain_needs_store
        (self (snd (index_documents env documents metadatas st)))).
Proof.
  unfold index_documents, add_documents, persist.
  destruct documents as [|doc docs]; [cbn; auto|].
  run. destruct (vector_store (self st)) as [handle|] eqn:Hvs; cbn;
    [|rewrite Hvs; auto].
  destruct (add_to_collection env (now st) (collection st) _)
    as [coll [e|]]; cbn; [rewrite Hvs; auto|].
  destruct (persist_collection env (S (now st)) coll) as [e|]; cbn;
    [rewrite Hvs; auto|].
  match goal with
  | |- context [_update_qa_chain env ?s] =>
      pose proof (update_qa_chain_self env s) as (H1 & H2 & H3 & H4);
      pose proof (update_qa_chain_collection env s) as [Hok _];
      destruct (_update_qa_chain env s) as [r st2]
  end.
  cbn in *. subst r. cbn. rewrite H1, H2, H3. auto.
Qed.

Lemma chat_self (env : Env) (message : string) (cid : option string)
    (st : State) :
  vector_store (self (snd (chat env message cid st))) = vector_store (self st)
  /\ qa_chain (self (snd (chat env message cid st))) = qa_chain (self st)
  /\ persist_directory (self (snd (chat env message cid st)))
     = persist_directory (self st)
  /\ collection (snd (chat env message cid st)) = collection st.
Proof.
  pose proof (read_only_respond env message (begun env message cid st))
    as [_ Hcoll].
  destruct (chat_outcome env message cid st)
    as [(a & srcs & st2 & Hr & Hs & Heq) | (e & st2 & Hr & Hs & Heq)];
    rewrite Heq; rewrite Hr in Hcoll; cbn [snd] in *.
  - unfold ended. cbn. rewrite Hs, Hcoll. unfold begun.
    destruct (str_truthy cid); cbn; auto.
  - rewrite Hs, Hcoll. unfold begun.
    destruct (str_truthy cid); cbn; auto.
Qed.

(** X5.  [chat] never writes to the document store and never changes the
    configuration of the chatbot: the collection, the store handle, the
    retrieval chain and the persist directory are after the call what they
    were before, whether the call returns or raises. *)
Theorem chat_leaves_store_alone (env : Env) (message : string)
    (cid : option string) (st : State) :
  collection (snd (chat env message cid st)) = collection st
  /\ vector_store (self (snd (chat env message cid st)))
     = vector_store (self st)
  /\ qa_chain (self (snd (chat env message cid st))) = qa_chain (self st)
  /\ persist_directory (self (snd (chat env message cid st)))
     = persist_directory (self st).
Proof.
  destruct (chat_self env message cid st) as (H1 & H2 & H3 & H4). auto.
Qed.

(** X6.  [index_documents] never touches a conversation, nor the store
    handle, nor the persist directory, whatever its input and whether it
    returns or raises: every history is after the call what it was
    before. *)
Theorem index_documents_leaves_conversations (env : Env)
    (documents : list string)
    (metadatas : option (list (gmap string string))) (st : State)
    (id : string) :
  history (snd (index_documents env documents metadatas st)) id
  = history st id
  /\ vector_store (self (snd (index_documents env documents metadatas st)))
     = vector_store (self st)
  /\ persist_directory
       (self (snd (index_documents env documents metadatas st)))
     = persist_directory (self st).
Proof.
  destruct (index_documents_self env documents metadatas st)
    as (H1 & H2 & H3 & _).
  unfold history. rewrite H2. auto.
Qed.

(** ** One conversation at a time *)

Lemma chat_conversations (env : Env) (message : string)
    (cid : option string) (st : State) :
  exists turns,
    conversations (self (snd (chat env message cid st)))
    = <[resolved_id env cid st := turns]> (conversations (self st)).
Proof.
  destruct (chat_outcome env message cid st)
    as [(a & srcs & st2 & _ & Hs & Heq) | (e & st2 & _ & Hs & Heq)];
    rewrite Heq; cbn [snd].
  - eexists. unfold ended. cbn. rewrite Hs. unfold begun.
    destruct (str_truthy cid); cbn; rewrite insert_insert_eq; reflexivity.
  - eexists. rewrite Hs. unfold begun.
    destruct (str_truthy cid); cbn; reflexivity.
Qed.

(** X7.  A chat call works on one conversation only: under every other
    identifier the conversation map holds after the call exactly what it
    held before (an unknown identifier stays unknown), whether the call
    returns or raises, and the identifier of the call is known
    afterwards. *)
Theorem chat_touches_one_conversation (env : Env) (message : string)
    (cid : option string) (st : State) (id : string) :
  id <> resolved_id env cid st ->
  conversations (self (snd (chat env message cid st))) !! id
  = conversations (self st) !! id
  /\ is_Some (conversations (self (snd (chat env message cid st)))
              !! resolved_id env cid st).
Proof.
  intros Hne. destruct (chat_conversations env message cid st) as [turns ->].
  split.
  - apply lookup_insert_ne. congruence.
  - rewrite lookup_insert_eq. eauto.
Qed.

Lemma chat_touches_one_conversation_witness :
  conversations
    (self (snd (chat honest "hello" (Some "c2")
                  (snd (chat honest "first" (Some "c1") (fresh_bot honest))))))
    !! "c1"
  = Some [user_turn "first"; assistant_turn "re: first"].
Proof.
  destruct (chat_touches_one_conversation honest "hello" (Some "c2")
              (snd (chat honest "first" (Some "c1") (fresh_bot honest)))
              "c1") as [Hsame _].
  - discriminate.
  - rewrite Hsame. vm_compute. reflexivity.
Defined.

(** ** Construction *)

(** What a construction that returns has done, step by step. *)
Lemma new_chatbot_returns (env : Env) (dir : string)
    (coll : list Document) (t : nat) (st0 : State) :
  new_chatbot env dir coll t = (Ok tt, st0) ->
  conversations (self st0) = ∅
  /\ persist_directory (self st0) = dir
  /\ collection st0 = coll
  /\ chain_needs_store (self st0)
  /\ match new_chroma env (3 + t) with
     | Some _ => vector_store (self st0) = None /\ mode st0 = DIRECT
     | None =>
         vector_store (self st0) = Some {| chroma_directory := dir |}
         /\ mode st0
            = match collection_count env (4 + t) coll with
              | Ok (S _) => GROUNDED
              | _ => DIRECT
              end
     end.
Proof.
  unfold new_chatbot, __init__.
  destruct (negb (str_truthy (GROQ_API_KEY env))); [discriminate|].
  run.
  destruct (new_embeddings env t); cbn; [discriminate|].
  destruct (negb (ChatGroq_installed env)); cbn; [discriminate|].
  destruct (new_llm env (S t)); cbn; [discriminate|].
  destruct (makedirs env (S (S t))); cbn; [discriminate|].
  destruct (new_chroma env (S (S (S t)))); cbn;
    match goal with
    | |- context [_update_qa_chain env ?s] =>
        pose proof (update_qa_chain_self env s) as (H1 & H2 & H3 & H4);
        pose proof (update_qa_chain_mode env s) as Hmode;
        pose proof (update_qa_chain_collection env s) as [_ Hcoll];
        destruct (_update_qa_chain env s) as [[[]|e'] st2]
    end; cbn in *; try discriminate;
    intros H; injection H as <-; cbn;
    (split; [reflexivity|]); (split; [assumption|]);
    (split; [assumption|]); (split; [exact H4|]);
    (split; [assumption|]);
    first [ exact Hmode
          | change (mode st2 = match collection_count env (S (S (S (S t)))) coll
                               with Ok (S _) => GROUNDED | _ => DIRECT end);
            rewrite Hmode;
            destruct (collection_count env (S (S (S (S t)))) coll)
              as [[|?]|]; reflexivity ].
Qed.

Lemma new_chatbot_ok_iff (env : Env) (dir : string)
    (coll : list Document) (t : nat) :
  fst (new_chatbot env dir coll t) = Ok tt
  <-> construction_inputs_fine env t.
Proof.
  unfold construction_inputs_fine, new_chatbot, __init__.
  destruct (str_truthy (GROQ_API_KEY env)); cbn [negb];
    [|split; [discriminate|intros (H & _); discriminate H]].
  run.
  destruct (new_embeddings env t); cbn;
    [split; [discriminate|intros (_ & H & _); discriminate H]|].
  destruct (ChatGroq_installed env); cbn;
    [|split; [discriminate|intros (_ & _ & H & _); discriminate H]].
  destruct (new_llm env (S t)); cbn;
    [split; [discriminate|intros (_ & _ & _ & H & _); discriminate H]|].
  destruct (makedirs env (S (S t))); cbn;
    [split; [discriminate|intros (_ & _ & _ & _ & H); discriminate H]|].
  destruct (new_chroma env (S (S (S t)))); cbn;
    match goal with
    | |- context [_update_qa_chain env ?s] =>
        pose proof (update_qa_chain_collection env s) as [Hok _];
        destruct (_update_qa_chain env s) as [r st2]
    end; cbn in Hok; subst r; cbn; split; auto.
Qed.

(** X8.  Construction returns exactly when the API key is set and not
    empty, the embeddings are built, ChatGroq is installed, the model
    client is built and the directory is made; every failure among these
    raises, and a missing or empty key raises [ValueError] before any
    service is called.  Neither a failure to open Chroma nor a failure to
    count the collection makes construction fail. *)
Theorem new_chatbot_returns_iff (env : Env) (dir : string)
    (coll : list Document) (t : nat) :
  (fst (new_chatbot env dir coll t) = Ok tt
   <-> construction_inputs_fine env t)
  /\ (str_truthy (GROQ_API_KEY env) = false ->
      exists msg,
        new_chatbot env dir coll t
        = (Raise (ValueError msg),
           {| self := blank; collection := coll; now := t |})).
Proof.
  split; [apply new_chatbot_ok_iff|].
  unfold new_chatbot, __init__. intros ->. cbn. eexists. reflexivity.
Qed.

Lemma new_chatbot_returns_iff_witness :
  fst (new_chatbot (without_chroma honest) "./chroma_db" [] 0) = Ok tt
  /\ exists msg,
       new_chatbot (without_key honest) "./chroma_db" [] 0
       = (Raise (ValueError msg),
          {| self := blank; collection := []; now := 0 |}).
Proof.
  split.
  - apply (proj1 (new_chatbot_returns_iff (without_chroma honest)
                    "./chroma_db" [] 0)).
    repeat split; reflexivity.
  - apply (proj2 (new_chatbot_returns_iff (without_key honest)
                    "./chroma_db" [] 0)).
    reflexivity.
Defined.

(** X9.  A chatbot that has been constructed holds no conversation, has
    recorded its persist directory, and has kept the collection as it
    found it.  When Chroma could not be opened it has no store handle and
    answers in DIRECT mode; otherwise it holds a handle on the directory
    and its mode is GROUNDED exactly when the count made at construction
    returned a positive number. *)
Theorem new_chatbot_state (env : Env) (dir : string)
    (coll : list Document) (t : nat) (st0 : State) :
  new_chatbot env dir coll t = (Ok tt, st0) ->
  (forall id, history st0 id = [])
  /\ persist_directory (self st0) = dir
  /\ collection st0 = coll
  /\ match new_chroma env (3 + t) with
     | Some _ => vector_store (self st0) = None /\ mode st0 = DIRECT
     | None =>
         vector_store (self st0) = Some {| chroma_directory := dir |}
         /\ mode st0
            = match collection_count env (4 + t) coll with
              | Ok (S _) => GROUNDED
              | _ => DIRECT
              end
     end.
Proof.
  intros Hnew.
  destruct (new_chatbot_returns env dir coll t st0 Hnew)
    as (Hconv & Hdir & Hcoll & _ & Hstore).
  split; [|auto].
  intros id. unfold history. rewrite Hconv, lookup_empty. reflexivity.
Qed.

Lemma new_chatbot_state_witness :
  vector_store (self (fresh_bot (without_chroma honest))) = None
  /\ mode (fresh_bot (without_chroma honest)) = DIRECT.
Proof.
  destruct (new_chatbot_state (without_chroma honest) "./chroma_db" [] 0
              (fresh_bot (without_chroma honest)))
    as (_ & _ & _ & Hstore).
  - vm_compute. reflexivity.
  - exact Hstore.
Defined.

(** ** Invariants of a constructed chatbot *)

Lemma after_call_self (env : Env) (st : State) (c : Call) :
  vector_store (self (after_call env st c)) = vector_store (self st)
  /\ persist_directory (self (after_call env st c))
     = persist_directory (self st)
  /\ (chain_needs_store (self st) ->
      chain_needs_store (self (after_call env st c))).
Proof.
  destruct c as [message cid|documents metadatas|id]; cbn [after_call].
  - destruct (chat_self env message cid st) as (H1 & H2 & H3 & _).
    unfold chain_needs_store. rewrite H1, H2, H3. auto.
  - destruct (index_documents_self env documents metadatas st)
      as (H1 & _ & H3 & H4). auto.
  - cbn. auto.
Qed.

(** X10.  Whatever calls are made on a constructed chatbot, returning or
    raising, it keeps the store handle and the persist directory it got at
    construction, and it holds a retrieval chain only together with a store
    handle. *)
Theorem constructed_chatbot_keeps_store (env : Env) (dir : string)
    (coll : list Document) (t : nat) (st0 : State) (calls : list Call) :
  new_chatbot env dir coll t = (Ok tt, st0) ->
  vector_store (self (after_calls env calls st0)) = vector_store (self st0)
  /\ persist_directory (self (after_calls env calls st0)) = dir
  /\ chain_needs_store (self (after_calls env calls st0)).
Proof.
  intros Hnew.
  destruct (new_chatbot_returns env dir coll t st0 Hnew)
    as (_ & Hdir & _ & Hinv & _).
  rewrite <- Hdir. clear Hnew Hdir. unfold after_calls.
  revert st0 Hinv. induction calls as [|c calls IH]; intros st0 Hinv;
    [cbn; auto|].
  cbn [fold_left].
  destruct (after_call_self env st0 c) as (H1 & H2 & H3).
  destruct (IH (after_call env st0 c) (H3 Hinv)) as (H4 & H5 & H6).
  rewrite H4, H5, H1, H2. auto.
Qed.

Lemma constructed_chatbot_keeps_store_witness :
  vector_store
    (self (after_calls honest
             [CallChat "hello" None;
              CallIndex [page_content paris] None;
              CallHistory "c1"]
             (fresh_bot honest)))
  = Some {| chroma_directory := "./chroma_db" |}.
Proof.
  destruct (constructed_chatbot_keeps_store honest "./chroma_db" [] 0
              (fresh_bot honest)
              [CallChat "hello" None;
               CallIndex [page_content paris] None;
               CallHistory "c1"]) as (Hvs & _ & _).
  - vm_compute. reflexivity.
  - rewrite Hvs. vm_compute. reflexivity.
Defined.

Lemma after_call_history (env : Env) (st : State) (c : Call) (id : string) :
  history (after_call env st c) id = history st id
  \/ (exists message,
        history (after_call env st c) id
        = (history st id ++ [user_turn message])%list)
  \/ (exists message answer,
        history (after_call env st c) id
        = (history st id ++ [user_turn message; assistant_turn answer])%list).
Proof.
  destruct c as [message cid|documents metadatas|id']; cbn [after_call].
  - destruct (chat env message cid st) as [[r|e] st'] eqn:Hchat; cbn [snd].
    + destruct (chat_returns_history env _ _ _ _ _ Hchat)
        as (_ & Hsame & Hother).
      destruct (decide (id = conversation_id r)) as [->|Hne].
      * right. right. eauto.
      * left. apply Hother. assumption.
    + destruct (chat_raises_history env _ _ _ _ _ Hchat) as (Hsame & Hother).
      destruct (decide (id = resolved_id env cid st)) as [->|Hne].
      * right. left. eauto.
      * left. apply Hother. assumption.
  - left. destruct (index_documents_self env documents metadatas st)
      as (_ & H2 & _). unfold history. rewrite H2. reflexivity.
  - left. reflexivity.
Qed.

Lemma dialogue_follows (turns : list Turn) :
  dialogue turns ->
  forall i turn,
    turns !! i = Some turn -> role turn = "assistant" ->
    exists j message, i = S j /\ turns !! j = Some (user_turn message).
Proof.
  induction 1 as [|turns message Hd IH|turns message answer Hd IH];
    intros i turn Hi Hrole.
  - rewrite lookup_nil in Hi. discriminate.
  - apply lookup_app_Some in Hi as [Hi|[Hlen Hi]].
    + destruct (IH i turn Hi Hrole) as (j & m & -> & Hj).
      exists j, m. split; [reflexivity|].
      apply lookup_app_l_Some. assumption.
    + destruct (i - length turns) as [|k]; cbn in Hi; [|discriminate].
      injection Hi as <-. discriminate Hrole.
  - apply lookup_app_Some in Hi as [Hi|[Hlen Hi]].
    + destruct (IH i turn Hi Hrole) as (j & m & -> & Hj).
      exists j, m. split; [reflexivity|].
      apply lookup_app_l_Some. assumption.
    + destruct (i - length turns) as [|[|k]] eqn:Hk; cbn in Hi;
        [injection Hi as <-; discriminate Hrole| |discriminate].
      exists (length turns), message. split; [lia|].
      rewrite lookup_app_r by lia.
      replace (length turns - length turns) with 0 by lia. reflexivity.
Qed.

(** X11.  Whatever calls are made on a constructed chatbot, every
    conversation is a sequence of user turns each followed by at most one
    assistant turn: an assistant turn is never first and always comes
    right after a user turn. *)
Theorem constructed_chatbot_dialogues (env : Env) (dir : string)
    (coll : list Document) (t : nat) (st0 : State) (calls : list Call)
    (id : string) :
  new_chatbot env dir coll t = (Ok tt, st0) ->
  dialogue (history (after_calls env calls st0) id)
  /\ (forall i turn,
        history (after_calls env calls st0) id !! i = Some turn ->
        role turn = "assistant" ->
        exists j message,
          i = S j
          /\ history (after_calls env calls st0) id !! j
             = Some (user_turn message)).
Proof.
  intros Hnew.
  assert (Hd : dialogue (history (after_calls env calls st0) id)).
  { destruct (new_chatbot_returns env dir coll t st0 Hnew) as (Hconv & _).
    assert (H0 : dialogue (history st0 id)).
    { unfold history. rewrite Hconv, lookup_empty. constructor. }
    clear Hnew Hconv. unfold after_calls.
    revert st0 H0. induction calls as [|c calls IH]; intros st0 H0;
      [exact H0|].
    cbn [fold_left]. apply IH.
    destruct (after_call_history env st0 c id)
      as [-> | [(m & ->) | (m & a & ->)]];
      [assumption | constructor; assumption | constructor; assumption]. }
  split; [assumption|]. apply dialogue_follows. assumption.
Qed.

Lemma constructed_chatbot_dialogues_witness :
  dialogue
    (history (after_calls llm_down
                [CallChat "hello" (Some "c1"); CallChat "again" (Some "c1")]
                (fresh_bot llm_down)) "c1").
Proof.
  apply (constructed_chatbot_dialogues llm_down "./chroma_db" [] 0
           (fresh_bot llm_down)
           [CallChat "hello" (Some "c1"); CallChat "again" (Some "c1")] "c1").
  vm_compute. reflexivity.
Defined.

(** ** Indexing *)

Lemma index_documents_eq (env : Env) (doc : string) (docs : list string)
    (metadatas : option (list (gmap string string))) (st : State)
    (handle : Chroma) :
  vector_store (self st) = Some handle ->
  index_documents env (doc :: docs) metadatas st
  = match add_to_collection env (now st) (collection st)
            (make_documents (doc :: docs) metadatas) with
    | (coll, Some e) =>
        (Raise e, {| self := self st; collection := coll; now := S (now st) |})
    | (coll, None) =>
        match persist_collection env (S (now st)) coll with
        | Some e =>
            (Raise e,
             {| self := self st; collection := coll; now := S (S (now st)) |})
        | None =>
            _update_qa_chain env
              {| self := self st; collection := coll; now := S (S (now st)) |}
        end
    end.
Proof.
  intros Hvs. unfold index_documents, add_documents, persist, make_documents.
  run. rewrite Hvs. cbn.
  destruct (add_to_collection env (now st) (collection st) _)
    as [coll [e|]]; cbn; [reflexivity|].
  destruct (persist_collection env (S (now st)) coll) as [e|]; cbn;
    [reflexivity|].
  destruct (_update_qa_chain env _) as [[[]|e] st2]; reflexivity.
Qed.

(** X12.  An indexing of at least one document on a chatbot with a store
    handle, whose two store calls return, returns; the collection is then
    what the store made of the documents built from the texts, and the
    mode has been refreshed on it: GROUNDED exactly when the count of the
    new collection returns a positive number.  No conversation changes. *)
Theorem index_documents_returns (env : Env) (doc : string)
    (docs : list string) (metadatas : option (list (gmap string string)))
    (st : State) (handle : Chroma) (coll : list Document) :
  vector_store (self st) = Some handle ->
  add_to_collection env (now st) (collection st)
    (make_documents (doc :: docs) metadatas) = (coll, None) ->
  persist_collection env (1 + now st) coll = None ->
  exists st',
    index_documents env (doc :: docs) metadatas st = (Ok tt, st')
    /\ collection st' = coll
    /\ now st' = 3 + now st
    /\ conversations (self st') = conversations (self st)
    /\ mode st'
       = match collection_count env (2 + now st) coll with
         | Ok (S _) => GROUNDED
         | _ => DIRECT
         end.
Proof.
  intros Hvs Hadd Hpersist.
  rewrite (index_documents_eq env doc docs metadatas st handle Hvs).
  rewrite Hadd. cbn in Hpersist. rewrite Hpersist.
  set (st1 := {| self := self st; collection := coll;
                 now := S (S (now st)) |}).
  pose proof (update_qa_chain_mode env st1) as Hmode.
  pose proof (update_qa_chain_self env st1) as (_ & Hconv & _).
  pose proof (update_qa_chain_collection env st1) as [Hok Hcoll].
  assert (Hnow : now (snd (_update_qa_chain env st1)) = 3 + now st).
  { unfold _update_qa_chain, count. run. rewrite Hvs. cbn.
    destruct (collection_count env (S (S (now st))) coll) as [[|n]|];
      reflexivity. }
  destruct (_update_qa_chain env st1) as [r st']. cbn in *. subst r.
  exists st'. repeat split; try assumption.
  rewrite Hmode. unfold store_ready. cbn. rewrite Hvs.
  destruct (collection_count env (S (S (now st))) coll) as [[|n]|];
    reflexivity.
Qed.

Lemma index_documents_returns_witness :
  exists st',
    index_documents honest [page_content paris] None (fresh_bot honest)
    = (Ok tt, st')
    /\ collection st' = [paris]
    /\ mode st' = GROUNDED.
Proof.
  destruct (index_documents_returns honest (page_content paris) [] None
              (fresh_bot honest) {| chroma_directory := "./chroma_db" |}
              [paris])
    as (st' & Heq & Hcoll & _ & _ & Hmode);
    [vm_compute; reflexivity ..|].
  exists st'. split; [assumption|]. split; [assumption|].
  rewrite Hmode. vm_compute. reflexivity.
Defined.

Lemma imap_texts (f : nat -> string -> Document) (texts : list string) :
  (forall i text, page_content (f i text) = text) ->
  map page_content (imap f texts) = texts.
Proof.
  revert f. induction texts as [|text texts IH]; intros f Hf; [reflexivity|].
  cbn [imap map]. rewrite Hf. f_equal. apply IH.
  intros i text'. apply Hf.
Qed.

(** X13.  The documents handed to the store keep the texts, one document
    per text and in the order given; the metadata of a text is the entry
    of [metadatas] at its position, and the empty mapping when [metadatas]
    is absent, empty or too short; entries beyond the last text are not
    used. *)
Theorem make_documents_texts (documents : list string)
    (metadatas : option (list (gmap string string))) :
  map page_content (make_documents documents metadatas) = documents
  /\ length (make_documents documents metadatas) = length documents
  /\ (forall i doc,
        make_documents documents metadatas !! i = Some doc ->
        metadata doc
        = match metadatas with
          | Some ms => match ms !! i with Some m => m | None => ∅ end
          | None => ∅
          end).
Proof.
  unfold make_documents. split; [|split].
  - apply imap_texts. intros i text. reflexivity.
  - apply length_imap.
  - intros i doc Hi. rewrite list_lookup_imap in Hi.
    destruct (documents !! i) as [text|]; [|discriminate].
    cbn in Hi. injection Hi as <-. cbn. unfold metadata_at.
    destruct metadatas as [ms|]; [|reflexivity].
    destruct (ms !! i); reflexivity.
Qed.

(** X14.  Indexing is not undone when it fails half way: when the store
    has added the documents and [persist] then raises, the error
    propagates, the collection keeps the added documents, and the chatbot
    is not refreshed, so that it goes on answering in the mode it had. *)
Theorem index_documents_persist_failure (env : Env) (doc : string)
    (docs : list string) (metadatas : option (list (gmap string string)))
    (st : State) (handle : Chroma) (coll : list Document) (e : exn) :
  vector_store (self st) = Some handle ->
  add_to_collection env (now st) (collection st)
    (make_documents (doc :: docs) metadatas) = (coll, None) ->
  persist_collection env (1 + now st) coll = Some e ->
  exists st',
    index_documents env (doc :: docs) metadatas st = (Raise e, st')
    /\ collection st' = coll
    /\ self st' = self st
    /\ mode st' = mode st.
Proof.
  intros Hvs Hadd Hpersist.
  rewrite (index_documents_eq env doc docs metadatas st handle Hvs).
  rewrite Hadd. cbn in Hpersist. rewrite Hpersist.
  eexists. split; [reflexivity|]. cbn. auto.
Qed.

Lemma index_documents_persist_failure_witness :
  exists st',
    index_documents (persist_fails_at 5) [page_content paris] None
      (fresh_bot (persist_fails_at 5))
    = (Raise (LibraryError "store unavailable"), st')
    /\ collection st' = [paris]
    /\ mode st' = DIRECT.
Proof.
  destruct (index_documents_persist_failure (persist_fails_at 5)
              (page_content paris) [] None (fresh_bot (persist_fails_at 5))
              {| chroma_directory := "./chroma_db" |} [paris]
              (LibraryError "store unavailable"))
    as (st' & Heq & Hcoll & _ & Hmode);
    [vm_compute; reflexivity ..|].
  exists st'. split; [assumption|]. split; [assumption|].
  rewrite Hmode. vm_compute. reflexivity.
Defined.

(** ** The two modes *)

Lemma resolved_id_same_model (env1 env2 : Env) (cid : option string)
    (st : State) :
  same_model env1 env2 -> resolved_id env1 cid st = resolved_id env2 cid st.
Proof.
  intros [_ Huuid]. unfold resolved_id.
  destruct cid as [[|c s]|]; rewrite ?Huuid; reflexivity.
Qed.

(** X15.  In DIRECT mode a chat call never consults the document store:
    its result and the state it leaves are the same under any two
    environments whose model and uuid source answer alike, however their
    stores behave. *)
Theorem chat_direct_ignores_store (env1 env2 : Env) (message : string)
    (cid : option string) (st : State) :
  mode st = DIRECT ->
  same_model env1 env2 ->
  chat env1 message cid st = chat env2 message cid st.
Proof.
  unfold mode. intros Hmode Hsame.
  assert (Hqa : qa_chain (self st) = None).
  { destruct (qa_chain (self st)); [discriminate|reflexivity]. }
  assert (Hb : begun env1 message cid st = begun env2 message cid st).
  { unfold begun. rewrite (resolved_id_same_model env1 env2 cid st Hsame).
    reflexivity. }
  rewrite !chat_eq, !respond_direct
    by (match goal with
        | |- qa_chain (self (begun ?e _ _ _)) = None =>
            destruct (begun_qa_chain e message cid st) as [-> _]; assumption
        end).
  rewrite Hb, (resolved_id_same_model env1 env2 cid st Hsame).
  destruct Hsame as [Hllm _]. rewrite Hllm. reflexivity.
Qed.

Lemma chat_direct_ignores_store_witness :
  chat honest "hello" None (fresh_bot honest)
  = chat (service_env always never) "hello" None (fresh_bot honest).
Proof.
  apply chat_direct_ignores_store.
  - vm_compute. reflexivity.
  - split; reflexivity.
Defined.

(** X16.  In GROUNDED mode, when the chain returns, the answer is the
    text of the model's reply to one prompt: the fixed instruction, the
    texts of the documents retrieved for the message with the chain's [k],
    separated by blank lines, and the message as the question.  The
    conversation records the message, never that prompt. *)
Theorem chat_grounded_answer (env : Env) (message : string)
    (cid : option string) (st st2 : State) (chain : QAChain) (a : string)
    (srcs : list string) :
  qa_chain (self st) = Some chain ->
  grounded_answer env chain message (begun env message cid st)
    = (Ok (a, srcs), st2) ->
  (exists docs response,
      similarity_search env (now (begun env message cid st)) (collection st)
        message (search_k chain) = Ok docs
      /\ llm env (1 + now (begun env message cid st))
           (format_prompt (format_docs docs) message) = Ok response
      /\ a = answer_of response)
  /\ history (snd (chat env message cid st)) (resolved_id env cid st)
     = (history st (resolved_id env cid st)
        ++ [user_turn message; assistant_turn a])%list.
Proof.
  intros Hqa Hg. split.
  - destruct (begun_qa_chain env message cid st) as (_ & _ & Hcoll).
    rewrite <- Hcoll. revert Hg.
    generalize (begun env message cid st). intros st1.
    unfold grounded_answer, qa_chain_invoke, vector_store_truth, retrieve,
      llm_invoke. run.
    destruct (similarity_search env (now st1) (collection st1) message
                (search_k chain)) as [docs|] eqn:Hdocs; cbn; [|discriminate].
    destruct (llm env (S (now st1)) _) as [response|] eqn:Hllm; cbn;
      [|discriminate].
    intros Hg. exists docs, response. split; [reflexivity|].
    split; [exact Hllm|].
    destruct (vector_store (self st1)); cbn in Hg.
    + destruct (store_truth env _ _) as [[|]|]; cbn in Hg;
        try discriminate.
      * destruct (similarity_search env _ _ message 3); cbn in Hg;
          [|discriminate].
        injection Hg as <- _ _. reflexivity.
      * injection Hg as <- _ _. reflexivity.
    + injection Hg as <- _ _. reflexivity.
  - assert (Hchat : exists st',
               chat env message cid st
               = (Ok {| answer := a;
                        conversation_id := resolved_id env cid st;
                        sources := srcs |}, st')).
    { rewrite chat_eq, (respond_grounded env chain).
      - rewrite Hg. eexists. reflexivity.
      - destruct (begun_qa_chain env message cid st) as [-> _]. assumption. }
    destruct Hchat as [st' Hchat].
    destruct (chat_returns_history env _ _ _ _ _ Hchat) as (_ & Hh & _).
    rewrite Hchat. exact Hh.
Qed.

Lemma chat_grounded_answer_witness :
  history (snd (chat honest "What is the capital of France?" (Some "c1")
                  (indexed_bot honest))) "c1"
  = [user_turn "What is the capital of France?";
     assistant_turn ("re: " +:+ format_prompt (page_content paris)
                                  "What is the capital of France?")].
Proof.
  destruct (grounded_answer honest {| search_k := 3 |}
              "What is the capital of France?"
              (begun honest "What is the capital of France?" (Some "c1")
                     (indexed_bot honest)))
    as [[[a srcs]|x] st2] eqn:Hg; [|vm_compute in Hg; discriminate Hg].
  destruct (chat_grounded_answer honest "What is the capital of France?"
              (Some "c1") (indexed_bot honest) st2 {| search_k := 3 |} a srcs)
    as [_ Hh].
  - vm_compute. reflexivity.
  - exact Hg.
  - change (resolved_id honest (Some "c1") (indexed_bot honest)) with "c1"
      in Hh.
    rewrite Hh. vm_compute in Hg. injection Hg as <- _ _.
    vm_compute. reflexivity.
Defined.

End RAGExtraProofs.

(* ===================================================================== *)
(** * main.py: properties *)
(* ===================================================================== *)

Module MainProofs.
Import Py Float64 Float64Facts GPA GPAExtra RAG RAGExtra.
Import GPAProofs GPAExtraProofs RAGProofs RAGExtraProofs.
Local Close Scope Z_scope.

(** ** GPA endpoint *)

Lemma calculate_gpa_raises_value_error (courses : list GPACourse) (e : exn) :
  calculate_gpa courses = Raise e -> exists msg, e = ValueError msg.
Proof.
  unfold calculate_gpa. destruct courses as [|c rest].
  - intros H. injection H as <-. eauto.
  - rewrite gpa_loop_eq.
    destruct (first_unrecognised (c :: rest)); cbn [rbind].
    + intros H. injection H as <-. eauto.
    + destruct (eqb _ _); [|discriminate].
      intros H. injection H as <-. eauto.
Qed.

(** X17.  The GPA endpoint never answers 500: whatever the request, a
    refusal has status 400 and carries the message of the [ValueError]
    that [calculate_gpa] raised. *)
Theorem calculate_gpa_endpoint_refusal (request : list Main.CourseInput)
    (e : Main.HTTPException) :
  Main.calculate_gpa_endpoint request = Main.Refused e ->
  Main.status_code e = 400
  /\ calculate_gpa (Main.to_courses request)
     = Raise (ValueError (Main.detail e)).
Proof.
  unfold Main.calculate_gpa_endpoint.
  destruct (calculate_gpa (Main.to_courses request)) as [r|x] eqn:Hc;
    [discriminate|].
  destruct (calculate_gpa_raises_value_error _ _ Hc) as [msg ->].
  intros H. injection H as <-. split; reflexivity.
Qed.

Lemma calculate_gpa_endpoint_refusal_witness :
  exists e,
    Main.calculate_gpa_endpoint
      [ {| Main.name := "algebra"; Main.credits := lit 30 1;
           Main.grade := "z" |} ] = Main.Refused e
    /\ Main.status_code e = 400.
Proof.
  destruct (Main.calculate_gpa_endpoint
              [ {| Main.name := "algebra"; Main.credits := lit 30 1;
                   Main.grade := "z" |} ]) as [r|e] eqn:He;
    [vm_compute in He; discriminate He|].
  exists e. split; [reflexivity|].
  apply (calculate_gpa_endpoint_refusal _ e He).
Defined.

Lemma first_unrecognised_to_courses (request : list Main.CourseInput) :
  first_unrecognised (Main.to_courses request)
  = option_map (fun c => {| GPA.name := Main.name c;
                            GPA.credits := Main.credits c;
                            GPA.grade := upper (Main.grade c) |})
               (Main.first_refused request).
Proof.
  induction request as [|c rest IH]; [reflexivity|].
  cbn [Main.to_courses map first_unrecognised Main.first_refused List.find
       GPA.grade].
  unfold grade_value at 1. rewrite upper_idem.
  fold (grade_value (Main.grade c)).
  destruct (grade_value (Main.grade c)); [|reflexivity].
  exact IH.
Qed.

Lemma to_courses_positive (request : list Main.CourseInput) :
  Forall Main.valid_course request ->
  Forall positive_credits (Main.to_courses request).
Proof.
  induction 1 as [|c rest Hc _ IH]; constructor; assumption.
Qed.

(** X18.  On a request that passed validation (every course has credits
    above zero) and whose grades hold neither U+00B5 nor U+00FF, the GPA
    endpoint has three outcomes only: 400 (no courses) on the empty list;
    400 quoting, in upper case, the grade of the first course whose grade
    is not recognised; and otherwise the three rounded values.  The
    refusal for zero total credits cannot occur. *)
Theorem calculate_gpa_endpoint_validated (request : list Main.CourseInput) :
  Forall Main.valid_course request ->
  Forall (fun c => in_latin1_upper (Main.grade c) = true) request ->
  Main.calculate_gpa_endpoint request
  = match request with
    | [] =>
        Main.Refused {| Main.status_code := 400;
                        Main.detail := "No courses provided" |}
    | _ =>
        match Main.first_refused request with
        | Some c =>
            Main.Refused
              {| Main.status_code := 400;
                 Main.detail := invalid_grade_message (upper (Main.grade c)) |}
        | None =>
            Main.Body
              {| Main.gpa :=
                   round (div (points_total (Main.to_courses request))
                              (credits_total (Main.to_courses request))) 2;
                 Main.total_credits :=
                   round (credits_total (Main.to_courses request)) 2;
                 Main.total_points :=
                   round (points_total (Main.to_courses request)) 2 |}
        end
    end.
Proof.
  intros Hvalid _. destruct request as [|c rest] eqn:Hreq; [reflexivity|].
  rewrite <- Hreq in *.
  assert (Hne : Main.to_courses request <> []) by (rewrite Hreq; discriminate).
  pose proof (sum_credits_positive (Main.to_courses request) Hne
                (to_courses_positive request Hvalid)) as Hpos.
  apply positive_nonzero in Hpos.
  unfold Main.calculate_gpa_endpoint, calculate_gpa.
  destruct (Main.to_courses request) as [|c0 rest0] eqn:Hcs; [congruence|].
  rewrite <- Hcs in *. rewrite gpa_loop_eq, first_unrecognised_to_courses.
  destruct (Main.first_refused request) as [bad|]; cbn [option_map rbind];
    [reflexivity|].
  change (fold_left (fun acc c => add acc (GPA.credits c))
            (Main.to_courses request) zero)
    with (sum_credits (Main.to_courses request)).
  rewrite Hpos. reflexivity.
Qed.

(** Two recognised grades in lower case; and a grade made of the letter
    U+00E9, which comes back as U+00C9 in the refusal. *)
Lemma calculate_gpa_endpoint_validated_witness :
  Main.calculate_gpa_endpoint
    [ {| Main.name := "algebra"; Main.credits := lit 30 1;
         Main.grade := "a" |};
      {| Main.name := "logic"; Main.credits := lit 30 1;
         Main.grade := "b+" |} ]
  = Main.Body {| Main.gpa := lit 365 2;
                 Main.total_credits := lit 6 0;
                 Main.total_points := lit 219 1 |}
  /\ Main.calculate_gpa_endpoint
       [ {| Main.name := "algebra"; Main.credits := lit 30 1;
            Main.grade := "a" |};
         {| Main.name := "logic"; Main.credits := lit 30 1;
            Main.grade := String (ascii_of_nat 233) EmptyString |} ]
     = Main.Refused
         {| Main.status_code := 400;
            Main.detail :=
              invalid_grade_message (String (ascii_of_nat 201) EmptyString) |}.
Proof.
  split.
  - rewrite calculate_gpa_endpoint_validated.
    + vm_compute. reflexivity.
    + repeat constructor; vm_compute; reflexivity.
    + repeat constructor.
  - rewrite calculate_gpa_endpoint_validated.
    + vm_compute. reflexivity.
    + repeat constructor; vm_compute; reflexivity.
    + repeat constructor.
Defined.

(** ** Chatbot endpoints *)

Lemma on_chatbot_eq {A} (method : M A) (bot : RAGChatbot) (app : Main.App) :
  Main.on_chatbot method bot app
  = (fst (method (Main.chatbot_state bot app)),
     {| Main.rag_chatbot :=
          Some (self (snd (method (Main.chatbot_state bot app))));
        Main.store := collection (snd (method (Main.chatbot_state bot app)));
        Main.clock := now (snd (method (Main.chatbot_state bot app))) |}).
Proof.
  unfold Main.on_chatbot, Main.chatbot_state.
  destruct (method _) as [r st]. reflexivity.
Qed.

(** X19.  The chat endpoint raises nothing but [HTTPException].  Without
    a chatbot it refuses with 503 and changes nothing.  With a chatbot it
    never refuses with 503: it returns the answer, the identifier and the
    sources of [chat], both turns being recorded, or, when [chat] raises,
    refuses with 500, and the conversation has then gained the user turn
    alone. *)
Theorem chat_endpoint_outcome (env : Env) (request : Main.ChatRequest)
    (app : Main.App) :
  match Main.rag_chatbot app with
  | None =>
      Main.chat_endpoint env request app
      = (Main.Refused Main.not_initialized, app)
  | Some bot =>
      let st := Main.chatbot_state bot app in
      let rid := resolved_id env (Main.conversation_id request) st in
      match Main.chat_endpoint env request app with
      | (Main.Body r, app') =>
          Main.response_conversation_id r = rid
          /\ Main.app_history app' rid
             = (history st rid
                ++ [user_turn (Main.message request);
                    assistant_turn (Main.response r)])%list
      | (Main.Refused e, app') =>
          Main.status_code e = 500
          /\ Main.app_history app' rid
             = (history st rid ++ [user_turn (Main.message request)])%list
      end
  end.
Proof.
  unfold Main.chat_endpoint.
  destruct (Main.rag_chatbot app) as [bot|]; [|reflexivity].
  cbn zeta. rewrite on_chatbot_eq.
  destruct (chat env (Main.message request) (Main.conversation_id request)
              (Main.chatbot_state bot app)) as [[r|e] st'] eqn:Hchat;
    cbn [fst snd].
  - destruct (chat_returns_history env _ _ _ _ _ Hchat) as (Hid & Hh & _).
    cbn [Main.response Main.response_conversation_id].
    split; [assumption|]. rewrite <- Hid. exact Hh.
  - destruct (chat_raises_history env _ _ _ _ _ Hchat) as (Hh & _).
    split; [reflexivity|]. exact Hh.
Qed.

(** X20.  The indexing endpoint refuses with 503 when there is no
    chatbot.  With a chatbot, the empty list is answered with the message
    for 0 documents and nothing changes, also when the chatbot has no
    vector store; a non-empty list on a chatbot without vector store is
    refused with 503; and a [ValueError] raised by the store itself is
    refused with the same 503, not with 500. *)
Theorem index_endpoint_outcome (env : Env) (app : Main.App) :
  (Main.rag_chatbot app = None ->
   forall documents,
     Main.index_documents env documents app
     = (Main.Refused Main.not_initialized, app))
  /\ (forall bot,
        Main.rag_chatbot app = Some bot ->
        Main.index_documents env [] app
        = (Main.Body "Successfully indexed 0 documents", app))
  /\ (forall bot doc docs,
        Main.rag_chatbot app = Some bot ->
        vector_store bot = None ->
        exists e,
          Main.index_documents env (doc :: docs) app = (Main.Refused e, app)
          /\ Main.status_code e = 503)
  /\ (forall bot handle doc docs coll msg,
        Main.rag_chatbot app = Some bot ->
        vector_store bot = Some handle ->
        add_to_collection env (Main.clock app) (Main.store app)
          (make_documents (doc :: docs) None) = (coll, Some (ValueError msg)) ->
        exists app',
          Main.index_documents env (doc :: docs) app
          = (Main.Refused (Main.indexing_unavailable (ValueError msg)), app')
          /\ Main.store app' = coll).
Proof.
  destruct app as [chatbot store clock]. cbn [Main.rag_chatbot].
  split; [|split; [|split]].
  - intros -> documents. reflexivity.
  - intros bot ->. reflexivity.
  - intros bot doc docs -> Hvs. unfold Main.index_documents.
    cbn [Main.rag_chatbot]. rewrite on_chatbot_eq.
    unfold Main.chatbot_state, index_documents. run. rewrite Hvs. cbn.
    eexists. split; [reflexivity|]. reflexivity.
  - intros bot handle doc docs coll msg -> Hvs Hadd.
    unfold Main.index_documents. cbn [Main.rag_chatbot].
    rewrite on_chatbot_eq.
    rewrite (index_documents_eq env doc docs None
               (Main.chatbot_state bot _) handle Hvs).
    cbn [Main.chatbot_state now collection Main.clock Main.store] in *.
    rewrite Hadd. cbn. eexists. split; reflexivity.
Qed.

Lemma index_endpoint_outcome_witness :
  Main.index_documents (without_chroma honest) []
    (Main.startup_event (without_chroma honest) (Main.boot []))
  = (Main.Body "Successfully indexed 0 documents",
     Main.startup_event (without_chroma honest) (Main.boot []))
  /\ exists e,
       Main.index_documents (without_chroma honest) [page_content paris]
         (Main.startup_event (without_chroma honest) (Main.boot []))
       = (Main.Refused e,
          Main.startup_event (without_chroma honest) (Main.boot []))
       /\ Main.status_code e = 503.
Proof.
  destruct (index_endpoint_outcome (without_chroma honest)
              (Main.startup_event (without_chroma honest) (Main.boot [])))
    as (_ & Hempty & Hnone & _).
  split.
  - apply (Hempty (self (fresh_bot (without_chroma honest)))).
    vm_compute. reflexivity.
  - apply (Hnone (self (fresh_bot (without_chroma honest)))).
    + vm_compute. reflexivity.
    + vm_compute. reflexivity.
Defined.

(** X21.  [startup_event] never raises.  After it, on a process that had
    no chatbot, the health check still reports the status healthy, and its
    flag tells whether construction returned; when it did not, the process
    keeps running and every chat and indexing request is refused with 503
    (not initialized). *)
Theorem startup_then_health (env : Env) (coll : list Document) :
  Main.status (Main.health_check (Main.startup_event env (Main.boot coll)))
  = "healthy"
  /\ (Main.rag_chatbot_available
        (Main.health_check (Main.startup_event env (Main.boot coll))) = true
      <-> construction_inputs_fine env 0)
  /\ (Main.rag_chatbot_available
        (Main.health_check (Main.startup_event env (Main.boot coll))) = false ->
      forall request documents,
        fst (Main.chat_endpoint env request
               (Main.startup_event env (Main.boot coll)))
        = Main.Refused Main.not_initialized
        /\ fst (Main.index_documents env documents
                  (Main.startup_event env (Main.boot coll)))
           = Main.Refused Main.not_initialized).
Proof.
  pose proof (new_chatbot_ok_iff env "./chroma_db" coll 0) as Hiff.
  unfold new_chatbot in Hiff.
  unfold Main.startup_event, Main.boot, Main.health_check.
  cbn [Main.store Main.clock Main.rag_chatbot].
  destruct (__init__ env "./chroma_db" _) as [[[]|e] st]; cbn in *.
  - split; [reflexivity|]. split; [tauto|discriminate].
  - split; [reflexivity|]. split.
    + split; [discriminate|]. intros H. apply Hiff in H. discriminate H.
    + intros _ request documents. split; reflexivity.
Qed.

Lemma startup_then_health_witness :
  Main.rag_chatbot_available
    (Main.health_check
       (Main.startup_event (without_key honest) (Main.boot []))) = false
  /\ fst (Main.chat_endpoint (without_key honest)
            {| Main.message := "hello"; Main.conversation_id := None |}
            (Main.startup_event (without_key honest) (Main.boot [])))
     = Main.Refused Main.not_initialized.
Proof.
  destruct (startup_then_health (without_key honest) []) as (_ & _ & H503).
  split; [vm_compute; reflexivity|].
  apply (H503 eq_refl
           {| Main.message := "hello"; Main.conversation_id := None |} []).
Defined.

End MainProofs.
